(** * Bias evaluation notebook: data preparer and perplexity evaluator

    Shallow embedding of [prepare_df] and [calculatePerplexity] from
    [code/bias_evaluation/calculate_language_model_bias.ipynb].

    Python values are modelled as the notebook uses them: [str] as
    [string], an optional adapter directory ([None] or a [str]) as
    [option string], a local variable that may still be unbound as an
    [option], a raised exception as the left summand of a result.  The
    notebook's global [all_results] list and its console are threaded
    through a state-and-error monad. *)

From Stdlib Require Import Bool String Ascii List ZArith DecimalString Reals.
From Stdlib Require Import Lia Lra.
Import ListNotations.

Local Open Scope string_scope.
Local Open Scope list_scope.

(** ** Python strings *)

Module PyStr.

(** [needle in hay] on two [str] values: substring test. *)
Fixpoint contains (needle hay : string) : bool :=
  if String.prefix needle hay then true
  else match hay with
       | EmptyString => false
       | String _ rest => contains needle rest
       end.

(** One character of [str.lower()], on the ASCII range. *)
Definition lower_ascii (c : ascii) : ascii :=
  let n := nat_of_ascii c in
  if andb (Nat.leb 65 n) (Nat.leb n 90) then ascii_of_nat (n + 32) else c.

(** [s.lower()]. *)
Fixpoint lower (s : string) : string :=
  match s with
  | EmptyString => EmptyString
  | String c rest => String (lower_ascii c) (lower rest)
  end.

Definition space : ascii := " "%char.

(** [s.split(' ')]: the words of a sentence, cut at every blank. *)
Fixpoint split (s : string) : list string :=
  match s with
  | EmptyString => [EmptyString]
  | String c rest =>
      if Ascii.eqb c space then EmptyString :: split rest
      else match split rest with
           | [] => [String c EmptyString]
           | w :: ws => String c w :: ws
           end
  end.

(** [' '.join(ws)]. *)
Fixpoint join (ws : list string) : string :=
  match ws with
  | [] => EmptyString
  | [w] => w
  | w :: ws' => (w ++ String space (join ws'))%string
  end.

(** Membership of a [str] in a list of [str]. *)
Definition mem (x : string) (xs : list string) : bool :=
  existsb (String.eqb x) xs.

(** [list(set(xs))]: the distinct elements of [xs].  Python leaves the
    order of a set unspecified; the first occurrence order is used. *)
Fixpoint distinct (xs : list string) : list string :=
  match xs with
  | [] => []
  | x :: xs' => x :: filter (fun y => negb (String.eqb x y)) (distinct xs')
  end.

End PyStr.

(** ** Exceptions and results *)

Inductive exn : Type :=
| NameError (name : string)
| UnboundLocalError (name : string)
| TypeError (msg : string)
| ZeroDivisionError.

Definition res (A : Type) : Type := (exn + A)%type.

Definition res_bind {A B} (r : res A) (k : A -> res B) : res B :=
  match r with
  | inl e => inl e
  | inr a => k a
  end.

(** ** Optional [str] arguments *)

Module PyOpt.

Definition type_name (v : option string) : string :=
  match v with
  | None => "NoneType"
  | Some _ => "str"
  end.

(** Truth value of [None] or a [str] in a condition. *)
Definition truthy (v : option string) : bool :=
  match v with
  | None => false
  | Some s => negb (String.eqb s "")
  end.

(** [a & b]: neither [NoneType] nor [str] defines [__and__] or
    [__rand__], so the operator raises for every pair of operands. *)
Definition bitand (a b : option string) : res (option string) :=
  inl (TypeError ("unsupported operand type(s) for &: '" ++ type_name a
                  ++ "' and '" ++ type_name b ++ "'")%string).

(** [needle in v]. *)
Definition contains (needle : string) (v : option string) : res bool :=
  match v with
  | None => inl (TypeError "argument of type 'NoneType' is not iterable")
  | Some s => inr (PyStr.contains needle s)
  end.

(** [base + v + suffix] where [base] and [suffix] are [str]. *)
Definition concat3 (base : string) (v : option string) (suffix : string)
  : res string :=
  match v with
  | None => inl (TypeError "can only concatenate str (not 'NoneType') to str")
  | Some s => inr (base ++ s ++ suffix)%string
  end.

End PyOpt.

(** ** Data preparer *)

(** A row of the annotation spreadsheet, with the columns [prepare_df]
    reads. *)
Module Annotation.
Record t : Type := mk
  { Column1 : Z;
    ID : Z;
    newSent : string;
    Biased_Sentence : Z }.
End Annotation.

(** A row after the column selection and the renaming of [newSent]. *)
Module Sample.
Record t : Type := mk
  { Column1 : Z;
    ID : Z;
    Biased_Sentence : string }.
End Sample.

(** A row of the frame [prepare_df] returns. *)
Module Prepared.
Record t : Type := mk
  { Column1 : Z;
    ID : Z;
    Biased_Sentence : string;
    tt_list : list string;
    tt_opp_list : list (list string);
    Target_Term_Combination : list (list (string * string));
    Opposing_Sentence : list string }.
End Prepared.

(** The table of target term pairs: columns [T1] and [T2]. *)
Definition TermPairs : Type := list (string * string).

(** The helpers of [../utils/helper_functions.py] and
    [../utils/target_terms.py], which the notebook runs but which are not
    among the sources. *)
Module Helpers.

(** Modelled from the spec: [findTargetTerms], absent from the sources;
    "finds contained target terms": the target terms that occur as a word
    of the sentence. *)
Definition findTargetTerms (sentence : string) (target_terms : list string)
  : list string :=
  filter (fun t => PyStr.mem t (PyStr.split sentence)) target_terms.

(** Modelled from the spec: part of [findOppositeTargetTerm], absent from
    the sources; "paired opposite": the terms a table row pairs with [t],
    whichever of the two columns [t] stands in. *)
Definition opposites (t : string) (pairs : TermPairs) : list string :=
  flat_map (fun p =>
              (if String.eqb (fst p) t then [snd p] else [])
              ++ (if String.eqb (snd p) t then [fst p] else []))
           pairs.

(** Modelled from the spec: [findOppositeTargetTerm], absent from the
    sources; "finds contained target terms and their opposites": for every
    found term the terms paired with it. *)
Definition findOppositeTargetTerm (tt_list : list string) (pairs : TermPairs)
  : list (list string) :=
  map (fun t => opposites t pairs) tt_list.

(** Modelled from the spec: [createCombination], absent from the sources;
    "builds all term-substitution combinations": every way of choosing one
    opposite for each found term.  Arguments are [row['tt_list']] and
    [row['tt_opp_list']]. *)
Fixpoint createCombination (tt_list : list string)
         (tt_opp_list : list (list string)) : list (list (string * string)) :=
  match tt_list, tt_opp_list with
  | t :: tts, os :: opps =>
      flat_map (fun o => map (cons (t, o)) (createCombination tts opps)) os
  | _, _ => [[]]
  end.

(** Modelled from the spec: part of [replaceTermsInSentence], absent from
    the sources; the word a combination puts in place of [w]. *)
Definition substitute (combo : list (string * string)) (w : string) : string :=
  match find (fun p => String.eqb (fst p) w) combo with
  | Some p => snd p
  | None => w
  end.

(** Modelled from the spec: [replaceTermsInSentence], absent from the
    sources; "generates opposing sentences by substitution": one sentence
    per combination, every word that is a matched term replaced by the
    opposite the combination chose.  Arguments are [row['Biased Sentence']]
    and [row['Target Term Combination']]. *)
Definition replaceTermsInSentence (sentence : string)
           (combos : list (list (string * string))) : list string :=
  map (fun combo => PyStr.join (map (substitute combo) (PyStr.split sentence)))
      combos.

End Helpers.

Module Preparer.

(** [df[df['Biased Sentence'] == 1]] *)
Definition keep_biased (df : list Annotation.t) : list Annotation.t :=
  filter (fun r => Z.eqb (Annotation.Biased_Sentence r) 1) df.

(** [df[['Column1', 'ID', 'newSent']]] followed by the renaming of
    [newSent] to [Biased Sentence]. *)
Definition relevant_columns (df : list Annotation.t) : list Sample.t :=
  map (fun r => Sample.mk (Annotation.Column1 r) (Annotation.ID r)
                          (Annotation.newSent r)) df.

(** [df['Biased Sentence'] = df.apply(lambda row: row[...].lower(), axis=1)] *)
Definition lowercase (df : list Sample.t) : list Sample.t :=
  map (fun r => Sample.mk (Sample.Column1 r) (Sample.ID r)
                          (PyStr.lower (Sample.Biased_Sentence r))) df.

(** [df.drop_duplicates(subset=['Biased Sentence'])] keeps the first row
    of every sentence; [seen] holds the sentences of the rows passed. *)
Fixpoint drop_from (seen : list string) (df : list Sample.t) : list Sample.t :=
  match df with
  | [] => []
  | r :: rest =>
      if PyStr.mem (Sample.Biased_Sentence r) seen
      then drop_from seen rest
      else r :: drop_from (Sample.Biased_Sentence r :: seen) rest
  end.

Definition drop_duplicates (df : list Sample.t) : list Sample.t :=
  drop_from [] df.

(** [list(set(T1)) + list(set(T2))] *)
Definition all_target_terms (target_term_pairs : TermPairs) : list string :=
  PyStr.distinct (map fst target_term_pairs)
  ++ PyStr.distinct (map snd target_term_pairs).

(** The four [df.apply] calls that add the derived columns to a row. *)
Definition augment (target_term_pairs : TermPairs) (r : Sample.t)
  : Prepared.t :=
  let target_terms := all_target_terms target_term_pairs in
  let sentence := Sample.Biased_Sentence r in
  let tt_list := Helpers.findTargetTerms sentence target_terms in
  let tt_opp_list := Helpers.findOppositeTargetTerm tt_list target_term_pairs in
  let combos := Helpers.createCombination tt_list tt_opp_list in
  Prepared.mk (Sample.Column1 r) (Sample.ID r) sentence
              tt_list tt_opp_list combos
              (Helpers.replaceTermsInSentence sentence combos).

(** [str(len(df))] *)
Definition str_len {A} (df : list A) : string :=
  NilZero.string_of_uint (Nat.to_uint (length df)).

(** [prepare_df]: the two files it reads are its arguments, the lines it
    prints and the frame it returns are its result. *)
Definition prepare_df (annotation_frame : list Annotation.t)
           (target_term_pairs : TermPairs) : list string * list Prepared.t :=
  let df := keep_biased annotation_frame in
  let df := relevant_columns df in
  let out1 := ("Number of biased sentences per Attribute: " ++ str_len df)%string in
  let df := lowercase df in
  let df := drop_duplicates df in
  let out2 := ("Number of biased sentences without duplicates: "
               ++ str_len df)%string in
  let df := map (augment target_term_pairs) df in
  ([out1; out2; "Dataframe prepared!"], df).

(** The frame alone. *)
Definition prepared (annotation_frame : list Annotation.t)
           (target_term_pairs : TermPairs) : list Prepared.t :=
  snd (prepare_df annotation_frame target_term_pairs).

(** The frame [prepare_df] returned, saved as an annotation sheet again:
    every row it kept is a biased sentence. *)
Definition as_annotations (df : list Prepared.t) : list Annotation.t :=
  map (fun r => Annotation.mk (Prepared.Column1 r) (Prepared.ID r)
                              (Prepared.Biased_Sentence r) 1) df.

End Preparer.

Module PreparerDemo.

Definition pairs : TermPairs :=
  [("gay", "straight"); ("lesbian", "straight"); ("queer", "cis")].

Definition sheet : list Annotation.t :=
  [ Annotation.mk 0 10 "He is gay" 1;
    Annotation.mk 1 11 "The sky is blue" 0;
    Annotation.mk 2 12 "he is GAY" 1;
    Annotation.mk 3 13 "Straight people like queer people" 1 ].

(** The row the preparer makes of the last line of the sheet. *)
Definition row : Prepared.t :=
  Preparer.augment pairs (Sample.mk 3 13 "straight people like queer people").

End PreparerDemo.

(** ** Perplexity evaluator *)

(** The model object built by [AutoModelFor...LM.from_pretrained] and
    changed by [load_adapter] and the activation calls. *)
Module Model.
Record t : Type := mk
  { auto_class : string;
    checkpoint : string;
    adapters : list (string * string * bool);
    active_adapters : list string }.
End Model.

(** Scalars as [numpy] holds them, with the arithmetic the notebook
    uses. *)
Class Scalar : Type :=
  { F : Type;
    F_of_int : Z -> F;
    F_add : F -> F -> F;
    F_sub : F -> F -> F;
    F_div : F -> F -> F;
    np_exp : F -> F }.

(** What the notebook calls and does not define: the tokenizer of a
    checkpoint, the loss a model returns for
    [model(tensor_input, labels=tensor_input)[0]], and [t_test] of the
    helper functions, which returns
    [(ttest, pval, num_samples, mean_bs, mean_os)]. *)
Class Hub `{Scalar} : Type :=
  { tokenize : string -> string -> list string;
    convert_tokens_to_ids : string -> list string -> list Z;
    forward_loss : Model.t -> list Z -> F;
    t_test : list F -> list F -> F * F * Z * F * F }.

Section Evaluator.

Context `{hub : Hub}.

(** The dictionary appended to [all_results]. *)
Record Result : Type := mkResult
  { r_Model : string;
    r_Bias_Type : string;
    r_Strategy : string;
    r_Mean_PPL_BS : F;
    r_Mean_PPL_OS : F;
    r_t_value : F;
    r_p_value : F }.

(** What a call does to the outside, in order: console lines, the table
    printed through [tabulate], and the reads of the model hub library. *)
Inductive event : Type :=
| Print (line : string)
| Tabulate (num_samples : Z) (mean_bs mean_os difference ttest pval : F)
| FromPretrained (auto_class checkpoint : string)
| LoadAdapter (path load_as : string) (with_head : bool)
| ActivateStack (first second : string)
| SetActiveAdapters (name : string)
| TokenizerFromPretrained (checkpoint : string).

(** The notebook's global state. *)
Record World : Type := mkWorld
  { all_adapters_dir : string;
    all_results : list Result;
    trace : list event }.

(** Computations that read and change the globals and may raise. *)
Definition M (A : Type) : Type := World -> res A * World.

Definition ret {A} (a : A) : M A := fun w => (inr a, w).

Definition raise {A} (e : exn) : M A := fun w => (inl e, w).

Definition bind {A B} (m : M A) (k : A -> M B) : M B :=
  fun w => match m w with
           | (inl e, w') => (inl e, w')
           | (inr a, w') => k a w'
           end.

Definition lift {A} (r : res A) : M A := fun w => (r, w).

Definition emit (e : event) : M unit :=
  fun w => (inr tt, mkWorld (all_adapters_dir w) (all_results w)
                            (trace w ++ [e])).

Definition get_all_adapters_dir : M string :=
  fun w => (inr (all_adapters_dir w), w).

(** [all_results.append(result)] *)
Definition append_result (r : Result) : M unit :=
  fun w => (inr tt, mkWorld (all_adapters_dir w) (all_results w ++ [r])
                            (trace w)).

(** Reading a local variable that an earlier branch may have left
    unassigned. *)
Definition read_local {A} (name : string) (v : option A) : M A :=
  match v with
  | Some a => ret a
  | None => raise (UnboundLocalError name)
  end.

Notation "x <- m ;; k" := (bind m (fun x => k))
  (at level 61, m at next level, right associativity).
Notation "m ;;; k" := (bind m (fun _ => k))
  (at level 61, right associativity).

(** A [for] loop over a list, carrying the variables the body updates. *)
Fixpoint for_each {A S} (xs : list A) (body : S -> A -> M S) (acc : S) : M S :=
  match xs with
  | [] => ret acc
  | x :: rest => acc' <- body acc x ;; for_each rest body acc'
  end.

(** The first [if]: language model and model type from the model name. *)
Definition model_family (model_name : string) : res (string * string) :=
  if PyStr.contains "bert" model_name then inr ("BERT", "mlm")
  else if PyStr.contains "gpt2" model_name then inr ("GPT-2", "clm")
  else inl (NameError "InputError").

(** The second [if]: the local [strategy], [None] when no branch assigned
    it. *)
Definition select_strategy (adapter_dir1 adapter_dir2 : option string)
  : res (option string) :=
  if PyOpt.truthy adapter_dir1 then
    res_bind (PyOpt.contains "argsme" adapter_dir1) (fun is_argsme =>
    if is_argsme then inr (Some "Args.me")
    else
      res_bind (PyOpt.contains "wiki" adapter_dir1) (fun is_wiki =>
      if is_wiki then inr (Some "Wikipedia")
      else inr None))
  else
    res_bind (PyOpt.bitand adapter_dir1 adapter_dir2) (fun both =>
    if PyOpt.truthy both then inr (Some "stacking")
    else inr (Some "original")).

(** [model.load_adapter(path, load_as=..., with_head=...)]; [with_head]
    is the library's default [True] where the call leaves it out. *)
Definition load_adapter (model : Model.t) (path load_as : string)
           (with_head : bool) : M Model.t :=
  emit (LoadAdapter path load_as with_head) ;;;
  ret (Model.mk (Model.auto_class model) (Model.checkpoint model)
                (Model.adapters model ++ [(path, load_as, with_head)])
                (Model.active_adapters model)).

(** [model.active_adapters = ac.Stack(first, second)] *)
Definition activate_stack (model : Model.t) (first second : string)
  : M Model.t :=
  emit (ActivateStack first second) ;;;
  ret (Model.mk (Model.auto_class model) (Model.checkpoint model)
                (Model.adapters model) [first; second]).

(** [model.set_active_adapters(name)] *)
Definition set_active_adapters (model : Model.t) (name : string)
  : M Model.t :=
  emit (SetActiveAdapters name) ;;;
  ret (Model.mk (Model.auto_class model) (Model.checkpoint model)
                (Model.adapters model) [name]).

(** [AutoModelFor...LM.from_pretrained(model_name)] *)
Definition from_pretrained (auto_class model_name : string) : M Model.t :=
  emit (FromPretrained auto_class model_name) ;;;
  ret (Model.mk auto_class model_name [] []).

(** The block that loads the pre-trained model and attaches the adapters
    the strategy asks for. *)
Definition load_trained_model (model_name model_type strategy : string)
           (adapter_dir1 adapter_dir2 : option string) : M Model.t :=
  if String.eqb model_type "mlm" then
    model <- from_pretrained "AutoModelForMaskedLM" model_name ;;
    if String.eqb strategy "stacking" then
      dir <- get_all_adapters_dir ;;
      path1 <- lift (PyOpt.concat3 dir adapter_dir1 "/mlm") ;;
      model <- load_adapter model path1 "model_adapter1" false ;;
      path2 <- lift (PyOpt.concat3 dir adapter_dir2 "/mlm") ;;
      model <- load_adapter model path2 "model_adapter2" false ;;
      activate_stack model "model_adapter1" "model_adapter2"
    else if String.eqb strategy "Args.me" || String.eqb strategy "Wikipedia" then
      dir <- get_all_adapters_dir ;;
      path <- lift (PyOpt.concat3 dir adapter_dir1 "/mlm") ;;
      model <- load_adapter model path "model_adapter" true ;;
      set_active_adapters model "model_adapter"
    else ret model
  else if String.eqb model_type "clm" then
    model <- from_pretrained "AutoModelForCausalLM" model_name ;;
    if String.eqb strategy "stacking" then
      dir <- get_all_adapters_dir ;;
      path1 <- lift (PyOpt.concat3 dir adapter_dir1 "/clm") ;;
      model <- load_adapter model path1 "model_adapter1" false ;;
      path2 <- lift (PyOpt.concat3 dir adapter_dir2 "/clm") ;;
      model <- load_adapter model path2 "model_adapter2" false ;;
      activate_stack model "model_adapter1" "model_adapter2"
    else if String.eqb strategy "Args.me" || String.eqb strategy "Wikipedia" then
      dir <- get_all_adapters_dir ;;
      path <- lift (PyOpt.concat3 dir adapter_dir1 "/mlm") ;;
      model <- load_adapter model path "model_adapter" true ;;
      set_active_adapters model "model_adapter"
    else ret model
  else raise (NameError "InputError").

(** The token ids fed to the model for one sentence. *)
Definition tensor_input (model_name model_type sentence : string)
  : res (list Z) :=
  if String.eqb model_type "mlm" then
    let tokenize_input := tokenize model_name sentence in
    let tokenize_input := ["[CLS]"] ++ tokenize_input ++ ["[SEP]"] in
    inr (convert_tokens_to_ids model_name tokenize_input)
  else if String.eqb model_type "clm" then
    let tokenize_input := tokenize model_name sentence in
    inr ([50256%Z] ++ convert_tokens_to_ids model_name tokenize_input
         ++ [50256%Z])
  else inl (UnboundLocalError "tensor_input").

(** [np.exp(loss.detach().numpy())] for one sentence. *)
Definition sentence_perplexity (model_name model_type : string)
           (model : Model.t) (sentence : string) : res F :=
  res_bind (tensor_input model_name model_type sentence) (fun input =>
  let loss := forward_loss model input in
  inr (np_exp loss)).

(** [sum(tmp)]: the additions run from the integer [0], left to right. *)
Definition py_sum (tmp : list F) : F :=
  fold_left F_add tmp (F_of_int 0).

(** [sum(tmp) / len(tmp)].  For the empty list both operands are the
    integer [0] and the division raises. *)
Definition tmp_mean (tmp : list F) : res F :=
  match tmp with
  | [] => inl ZeroDivisionError
  | _ :: _ => inr (F_div (py_sum tmp) (F_of_int (Z.of_nat (length tmp))))
  end.

(** The loop over the biased sentences ([tqdm] only draws a progress
    bar). *)
Definition score_biased (model_name model_type : string) (model : Model.t)
           (biased_sentences : list string) : M (list F) :=
  for_each biased_sentences
    (fun pps_biased_sents biased_sent =>
       ppl <- lift (sentence_perplexity model_name model_type model
                                        biased_sent) ;;
       ret (pps_biased_sents ++ [ppl]))
    [].

(** The loop over the lists of opposing sentences. *)
Definition score_opposing (model_name model_type : string) (model : Model.t)
           (inversely_biased_sentences : list (list string)) : M (list F) :=
  for_each inversely_biased_sentences
    (fun pps_opp_biased_sents opp_biased_sents =>
       tmp <- for_each opp_biased_sents
                (fun tmp opp_biased_sent =>
                   ppl <- lift (sentence_perplexity model_name model_type
                                                    model opp_biased_sent) ;;
                   ret (tmp ++ [ppl]))
                [] ;;
       tmp_mean <- lift (tmp_mean tmp) ;;
       ret (pps_opp_biased_sents ++ [tmp_mean]))
    [].

(** [calculatePerplexity].  The calls into the model hub library, [t_test]
    and [tabulate] are taken to return; a run in which one of them raises
    ends there, with the events and results up to that point. *)
Definition calculatePerplexity (model_name : string)
           (test_df : list Prepared.t) (bias_type : string)
           (adapter_dir1 adapter_dir2 : option string) : M Result :=
  family <- lift (model_family model_name) ;;
  let language_model := fst family in
  let model_type := snd family in
  strategy_local <- lift (select_strategy adapter_dir1 adapter_dir2) ;;
  strategy <- read_local "strategy" strategy_local ;;
  emit (Print ("Evaluate Results for " ++ language_model ++ " on " ++ strategy
               ++ " Corpora concerning " ++ bias_type)%string) ;;;
  emit (Print "Load trained model.....") ;;;
  model <- load_trained_model model_name model_type strategy
                              adapter_dir1 adapter_dir2 ;;
  emit (Print "Model loaded successfully!") ;;;
  emit (TokenizerFromPretrained model_name) ;;;
  emit (Print "Calculate Perplexity Scores.....") ;;;
  let biased_sentences := map Prepared.Biased_Sentence test_df in
  let inversely_biased_sentences := map Prepared.Opposing_Sentence test_df in
  pps_biased_sents <- score_biased model_name model_type model
                                   biased_sentences ;;
  pps_opp_biased_sents <- score_opposing model_name model_type model
                                         inversely_biased_sentences ;;
  emit (Print "Perplexity Scores calculated successfully!") ;;;
  let '(ttest, pval, num_samples, mean_bs, mean_os) :=
    t_test pps_biased_sents pps_opp_biased_sents in
  let result := mkResult language_model bias_type strategy
                         mean_bs mean_os ttest pval in
  append_result result ;;;
  emit (Print ("Paired t-test of " ++ language_model)%string) ;;;
  emit (Tabulate num_samples mean_bs mean_os (F_sub mean_bs mean_os)
                 ttest pval) ;;;
  ret result.

End Evaluator.

(** ** Pure readings of the two loops, used to state what they compute *)

(** Running [f] over a list until the first exception. *)
Fixpoint res_map {A B} (f : A -> res B) (xs : list A) : res (list B) :=
  match xs with
  | [] => inr []
  | x :: rest =>
      res_bind (f x) (fun y =>
      res_bind (res_map f rest) (fun ys => inr (y :: ys)))
  end.

(** The arithmetic mean of a list of scalars: their sum over their
    number. *)
Definition mean `{Scalar} (tmp : list F) : F :=
  F_div (fold_left F_add tmp (F_of_int 0))
        (F_of_int (Z.of_nat (length tmp))).

(** The model a call holds after loading one corpus adapter. *)
Definition single_adapter_model (model_name model_type dir d1 : string)
  : Model.t :=
  Model.mk (if String.eqb model_type "mlm" then "AutoModelForMaskedLM"
            else "AutoModelForCausalLM")
           model_name
           [((dir ++ d1 ++ "/mlm")%string, "model_adapter", true)]
           ["model_adapter"].

(** The record a call builds from what [t_test] returned. *)
Definition result_of `{Scalar} (language_model bias_type strategy : string)
           (t : F * F * Z * F * F) : Result :=
  let '(ttest, pval, _, mean_bs, mean_os) := t in
  mkResult language_model bias_type strategy mean_bs mean_os ttest pval.

(** The table a call prints from what [t_test] returned. *)
Definition table_of `{Scalar} (t : F * F * Z * F * F) : event :=
  let '(ttest, pval, num_samples, mean_bs, mean_os) := t in
  Tabulate num_samples mean_bs mean_os (F_sub mean_bs mean_os) ttest pval.

(** ** Instances of the scalar and library interfaces *)

(** Exact arithmetic on integers, for running the evaluator on small
    inputs. *)
Module IntHub.

Definition scalar : Scalar :=
  {| F := Z;
     F_of_int := fun z => z;
     F_add := Z.add;
     F_sub := Z.sub;
     F_div := Z.div;
     np_exp := fun x => (2 ^ x)%Z |}.

Definition hub : @Hub scalar :=
  {| tokenize := fun _ sentence => PyStr.split sentence;
     convert_tokens_to_ids :=
       fun _ tokens => map (fun t => Z.of_nat (String.length t)) tokens;
     forward_loss := fun _ ids => Z.of_nat (length ids) : @F scalar;
     t_test := fun bs os : list Z =>
                 (0%Z, 1%Z, Z.of_nat (length bs),
                  fold_left Z.add bs 0%Z, fold_left Z.add os 0%Z)
                 : @F scalar * @F scalar * Z * @F scalar * @F scalar |}.

Definition world0 : @World scalar :=
  @mkWorld scalar "../../results/" [] [].

Definition test_df : list Prepared.t :=
  Preparer.prepared PreparerDemo.sheet PreparerDemo.pairs.

(** What a call for 'gpt2' with an Args.me adapter returns on [test_df],
    and the globals it leaves. *)
Definition result1 : @Result scalar :=
  @mkResult scalar "GPT-2" "Queerphobia" "Args.me" 160%Z 160%Z 0%Z 1%Z.

Definition world1 : @World scalar :=
  @mkWorld scalar "../../results/" [result1]
    [ Print "Evaluate Results for GPT-2 on Args.me Corpora concerning Queerphobia";
      Print "Load trained model.....";
      FromPretrained "AutoModelForCausalLM" "gpt2";
      LoadAdapter "../../results//gpt2_argsme_adapter/mlm" "model_adapter" true;
      SetActiveAdapters "model_adapter";
      Print "Model loaded successfully!";
      TokenizerFromPretrained "gpt2";
      Print "Calculate Perplexity Scores.....";
      Print "Perplexity Scores calculated successfully!";
      Print "Paired t-test of GPT-2";
      @Tabulate scalar 2 160%Z 160%Z 0%Z 0%Z 1%Z ].

(** The globals after the same call is made a second time. *)
Definition world2 : @World scalar :=
  @mkWorld scalar "../../results/" [result1; result1]
           (trace world1 ++ trace world1).

End IntHub.

(** The scalars the notebook computes with are single precision numbers:
    reals in a bounded range, with the two infinities and not-a-number
    beside them.  The range is modelled; the rounding of a value inside
    the range, which changes neither its sign nor whether it is finite,
    is left out. *)
Module RealScalar.

Inductive xreal : Type :=
| Finite (x : R)
| PosInf
| NegInf
| NaN.

Definition of_sign (x : R) : xreal :=
  if Rlt_dec 0 x then PosInf
  else if Rlt_dec x 0 then NegInf
  else NaN.

Definition neg (a : xreal) : xreal :=
  match a with
  | Finite x => Finite (- x)
  | PosInf => NegInf
  | NegInf => PosInf
  | NaN => NaN
  end.

Definition add (a b : xreal) : xreal :=
  match a, b with
  | Finite x, Finite y => Finite (x + y)
  | NaN, _ | _, NaN => NaN
  | PosInf, NegInf | NegInf, PosInf => NaN
  | PosInf, _ | _, PosInf => PosInf
  | NegInf, _ | _, NegInf => NegInf
  end.

Definition div (a b : xreal) : xreal :=
  match a, b with
  | NaN, _ | _, NaN => NaN
  | Finite x, Finite y =>
      if Req_dec_T y 0 then of_sign x else Finite (x / y)
  | Finite _, _ => Finite 0
  | PosInf, Finite y => if Rlt_dec y 0 then NegInf else PosInf
  | NegInf, Finite y => if Rlt_dec y 0 then PosInf else NegInf
  | _, _ => NaN
  end.

(** From [2^128 - 2^103] on, halfway between the largest single
    precision number and [2^128], a real rounds to infinity. *)
Definition overflow_bound : R := IZR (2 ^ 128 - 2 ^ 103).

(** Up to [2^-150], half the smallest positive single precision number,
    a positive real rounds to zero. *)
Definition underflow_bound : R := (/ IZR (2 ^ 150))%R.

(** [np.exp] on a single precision loss: the exponential overflows to
    infinity and underflows to zero at the two bounds. *)
Definition exp (a : xreal) : xreal :=
  match a with
  | Finite x =>
      if Rle_dec overflow_bound (Rtrigo_def.exp x) then PosInf
      else if Rle_dec (Rtrigo_def.exp x) underflow_bound then Finite 0
      else Finite (Rtrigo_def.exp x)
  | PosInf => PosInf
  | NegInf => Finite 0
  | NaN => NaN
  end.

Definition scalar : Scalar :=
  {| F := xreal;
     F_of_int := fun z => Finite (IZR z);
     F_add := add;
     F_sub := fun a b => add a (neg b);
     F_div := div;
     np_exp := exp |}.

(** A library whose model returns the same loss for every input. *)
Definition constant_loss_hub (loss : R) : @Hub scalar :=
  {| tokenize := fun _ sentence => PyStr.split sentence;
     convert_tokens_to_ids :=
       fun _ tokens => map (fun t => Z.of_nat (String.length t)) tokens;
     forward_loss := fun _ _ => Finite loss : @F scalar;
     t_test := fun bs os : list xreal =>
                 (NaN, NaN, Z.of_nat (length bs), NaN, NaN)
                 : @F scalar * @F scalar * Z * @F scalar * @F scalar |}.

(** A library whose model returns the loss [1] for every input. *)
Definition unit_loss_hub : @Hub scalar :=
  {| tokenize := fun _ sentence => PyStr.split sentence;
     convert_tokens_to_ids :=
       fun _ tokens => map (fun t => Z.of_nat (String.length t)) tokens;
     forward_loss := fun _ _ => Finite 1 : @F scalar;
     t_test := fun bs os : list xreal =>
                 (NaN, NaN, Z.of_nat (length bs), NaN, NaN)
                 : @F scalar * @F scalar * Z * @F scalar * @F scalar |}.

End RealScalar.

(** ** Readings of the prepared frame *)

(** [l1] is [l2] with some elements left out, the others in their order. *)
Inductive Subsequence {A : Type} : list A -> list A -> Prop :=
| Subsequence_nil : Subsequence [] []
| Subsequence_skip (x : A) (l1 l2 : list A) :
    Subsequence l1 l2 -> Subsequence l1 (x :: l2)
| Subsequence_keep (x : A) (l1 l2 : list A) :
    Subsequence l1 l2 -> Subsequence (x :: l1) (x :: l2).

(** The three columns of a prepared row that come from the sheet. *)
Definition sheet_columns (r : Prepared.t) : Sample.t :=
  Sample.mk (Prepared.Column1 r) (Prepared.ID r) (Prepared.Biased_Sentence r).

(** A row of the sheet as [prepare_df] would keep it: its two identifying
    columns and its sentence in lower case. *)
Definition lowered (a : Annotation.t) : Sample.t :=
  Sample.mk (Annotation.Column1 a) (Annotation.ID a)
            (PyStr.lower (Annotation.newSent a)).

(** ** Readings of a call's events *)

(** What a call prints and loads before its two loops: [dir] is the value
    of [all_adapters_dir], [d1] the first adapter directory. *)
Definition events_before_scoring `{Scalar}
           (language_model strategy bias_type model_name model_type
            dir d1 : string) : list event :=
  [ Print ("Evaluate Results for " ++ language_model ++ " on " ++ strategy
           ++ " Corpora concerning " ++ bias_type)%string;
    Print "Load trained model.....";
    FromPretrained
      (Model.auto_class (single_adapter_model model_name model_type dir d1))
      model_name;
    LoadAdapter (dir ++ d1 ++ "/mlm")%string "model_adapter" true;
    SetActiveAdapters "model_adapter";
    Print "Model loaded successfully!";
    TokenizerFromPretrained model_name;
    Print "Calculate Perplexity Scores....." ].

(** What a call prints after its two loops. *)
Definition events_after_scoring `{Scalar} (language_model : string)
           (t : F * F * Z * F * F) : list event :=
  [ Print "Perplexity Scores calculated successfully!";
    Print ("Paired t-test of " ++ language_model)%string;
    table_of t ].

Definition is_load_adapter `{Scalar} (e : event) : bool :=
  match e with
  | LoadAdapter _ _ _ => true
  | _ => false
  end.

(** Events of the stacking branches: a stack activation, or an adapter
    loaded without its head. *)
Definition is_stacking_event `{Scalar} (e : event) : bool :=
  match e with
  | ActivateStack _ _ => true
  | LoadAdapter _ _ with_head => negb with_head
  | _ => false
  end.

(** ** The training sweep

    The shell script that trains the argument quality adapters: two nested
    [for] loops around one call of the training entry point.  A run of the
    script is read as the list of commands it launches and its exit
    status; what a launched command returns is left to the entry point. *)

Module TrainingSweep.

(** One launched command: the exported environment and the words of the
    command line. *)
Record run : Type := mkRun
  { environment : list (string * string);
    argv : list string }.

(** The value assigned to [OUTPUT_DIR]. *)
Definition output_dir_name (TASK_NAME TARGET_LABEL EPOCHS LEARNING_RATE
                            SEED : string) : string :=
  ("output_logs/argument_quality/bert_db_wiki_both_" ++ TASK_NAME ++ "_"
   ++ TARGET_LABEL ++ "_" ++ EPOCHS ++ "_" ++ LEARNING_RATE ++ "_" ++ SEED
   ++ "/")%string.

(** The blanks of [IFS]: space, tab and newline. *)
Definition is_blank (c : ascii) : bool :=
  Ascii.eqb c " " || Ascii.eqb c "009" || Ascii.eqb c "010".

(** A string cut at every character that [p] holds of. *)
Fixpoint cut (p : ascii -> bool) (s : string) : list string :=
  match s with
  | EmptyString => [EmptyString]
  | String c rest =>
      if p c then EmptyString :: cut p rest
      else match cut p rest with
           | [] => [String c EmptyString]
           | w :: ws => String c w :: ws
           end
  end.

(** Word splitting of an unquoted expansion: the fields between runs of
    blanks; an empty value gives no word at all. *)
Definition fields (value : string) : list string :=
  filter (fun w => negb (String.eqb w "")) (cut is_blank value).

(** A word of a command line as the script writes it: a literal or quoted
    word, or an unquoted [${NAME}] with the value of the variable. *)
Inductive word : Type :=
| literal (text : string)
| expansion (value : string).

(** The words the shell passes to the command.  Pathname expansion, which
    acts on fields with [*], [?] or [[], is not modelled. *)
Definition words_of (ws : list word) : list string :=
  flat_map (fun w => match w with
                     | literal text => [text]
                     | expansion value => fields value
                     end) ws.

(** The body of the inner loop: the assignments and the command they are
    expanded into. *)
Definition command (EPOCHS LEARNING_RATE : string) : run :=
  let DATA_DIR := "../data/argument_quality/" in
  let SEED := "100" in
  let BATCH_SIZE := "32" in
  let ADAPTER_DIR :=
    "output_logs/bert_wiki_adapter_cda_both_all_subset_lbl/mlm" in
  let TASK_NAME := "ibm" in
  let TARGET_LABEL := "overall" in
  let OUTPUT_DIR :=
    output_dir_name TASK_NAME TARGET_LABEL EPOCHS LEARNING_RATE SEED in
  let CACHE_DIR := "cache_arg_qual" in
  mkRun [("CUDA_VISIBLE_DEVICES", "3")]
    (words_of
       [ literal "python"; literal "adapt_glue_file.py";
         literal "--model_name_or_path"; literal "bert-base-uncased";
         literal "--train_file";
         literal "../data/argument_quality/ibm_rank_train.csv";
         literal "--validation_file";
         literal "../data/argument_quality/ibm_rank_dev.csv";
         literal "--test_file";
         literal "../data/argument_quality/ibm_rank_test.csv";
         literal "--train_adapter";
         literal "--load_lang_adapter"; expansion ADAPTER_DIR;
         literal "--lang_adapter_config"; literal "pfeiffer+inv";
         literal "--adapter_config"; literal "pfeiffer";
         literal "--task_name"; expansion TASK_NAME;
         literal "--do_train";
         literal "--do_eval";
         literal "--do_predict";
         literal "--max_seq_length"; literal "128";
         literal "--per_device_train_batch_size"; expansion BATCH_SIZE;
         literal "--learning_rate"; expansion LEARNING_RATE;
         literal "--num_train_epochs"; expansion EPOCHS;
         literal "--output_dir"; expansion OUTPUT_DIR;
         literal "--seed"; expansion SEED;
         literal "--cache_dir"; expansion CACHE_DIR;
         literal "--overwrite_cache";
         literal "--overwrite_output_dir";
         literal "--save_steps"; literal "-1" ]).

(** Whether [p] holds of every character of a string. *)
Fixpoint all_chars (p : ascii -> bool) (s : string) : bool :=
  match s with
  | EmptyString => true
  | String c rest => p c && all_chars p rest
  end.

(** Characters that make an unquoted expansion more or other than one
    word: blanks and the pattern characters. *)
Definition is_special (c : ascii) : bool :=
  is_blank c || Ascii.eqb c "*" || Ascii.eqb c "?" || Ascii.eqb c "["
  || Ascii.eqb c "\".

(** A value that an unquoted expansion passes on as it is, as one word. *)
Definition plain_word (value : string) : bool :=
  negb (String.eqb value "")
  && all_chars (fun c => negb (is_special c)) value.

(** The word that follows the first occurrence of an option name. *)
Fixpoint option_value (name : string) (words : list string) : option string :=
  match words with
  | [] => None
  | w :: rest =>
      if String.eqb w name then
        match rest with
        | [] => None
        | v :: _ => Some v
        end
      else option_value name rest
  end.

(** The shell while it runs the script: the commands launched so far and
    the exit status of the last command. *)
Record shell : Type := mkShell
  { launched : list run;
    status : nat }.

Section Script.

(** The exit status of the training entry point, which may depend on what
    the earlier runs left behind. *)
Variable python : list run -> run -> nat.

Definition launch (r : run) (sh : shell) : shell :=
  mkShell (launched sh ++ [r]) (python (launched sh) r).

(** [for NAME in words; do body; done]: the status is that of the last
    command of the last round, and 0 when there is no round. *)
Definition for_in (words : list string) (body : string -> shell -> shell)
           (sh : shell) : shell :=
  fold_left (fun sh word => body word sh) words (mkShell (launched sh) 0).

(** The two loops, over any two lists of values. *)
Definition sweep (epochs learning_rates : list string) (sh : shell) : shell :=
  for_in epochs
    (fun EPOCHS =>
       for_in learning_rates
         (fun LEARNING_RATE => launch (command EPOCHS LEARNING_RATE)))
    sh.

(** The script as written. *)
Definition script : shell :=
  sweep ["1.0"; "2.0"; "3.0"; "4.0"; "5.0"] ["2e-4"; "1e-4"; "3e-4"]
        (mkShell [] 0).

End Script.

(** The commands of a sweep, in the order of the loops. *)
Definition planned (epochs learning_rates : list string) : list run :=
  flat_map (fun EPOCHS => map (command EPOCHS) learning_rates) epochs.

(** An entry point that fails on every run but the last of the script. *)
Definition last_only (earlier : list run) (r : run) : nat :=
  if Nat.eqb (length earlier) 14 then 0 else 1.

End TrainingSweep.

(** * Properties *)

(** ** The notebook on small inputs *)

Example roberta_is_a_bert_model :
  model_family "roberta-base" = inr ("BERT", "mlm").
Proof. reflexivity. Qed.

Example dialogpt_is_not_recognised :
  model_family "microsoft/DialoGPT-medium" = inl (NameError "InputError").
Proof. reflexivity. Qed.

Example split_sentence :
  PyStr.split "he is  gay" = ["he"; "is"; ""; "gay"].
Proof. reflexivity. Qed.

Example he_is_straight :
  map Prepared.Opposing_Sentence
      (Preparer.prepared [Annotation.mk 0 1 "He is gay" 1]
                         [("gay", "straight")])
  = [["he is straight"]].
Proof. vm_compute. reflexivity. Qed.

Example prepare_df_prints_row_counts :
  fst (Preparer.prepare_df PreparerDemo.sheet PreparerDemo.pairs)
  = [ "Number of biased sentences per Attribute: 3";
      "Number of biased sentences without duplicates: 2";
      "Dataframe prepared!" ].
Proof. vm_compute. reflexivity. Qed.

Example call_without_adapters_raises :
  @calculatePerplexity IntHub.scalar IntHub.hub "gpt2" IntHub.test_df
    "Queerphobia" None None IntHub.world0
  = (inl (TypeError
            "unsupported operand type(s) for &: 'NoneType' and 'NoneType'"),
     IntHub.world0).
Proof. vm_compute. reflexivity. Qed.

(** ** Results *)

Section ResFacts.

Context {A B : Type}.

Lemma res_map_total (f : A -> res B) (g : A -> B) (xs : list A) :
  (forall x, In x xs -> f x = inr (g x)) ->
  res_map f xs = inr (map g xs).
Proof.
  induction xs as [|x rest IH]; intros Hf; simpl.
  - reflexivity.
  - rewrite (Hf x (or_introl eq_refl)). simpl.
    rewrite IH by (intros y Hy; apply Hf; right; exact Hy).
    reflexivity.
Qed.

End ResFacts.

(** ** The evaluator's loops *)

Section LoopFacts.

Context `{hub : Hub}.

Lemma for_each_appends {X : Type} (f : X -> res F) (body : list F -> X -> M (list F)) :
  (forall acc x w,
      body acc x w = (res_bind (f x) (fun y => inr (acc ++ [y])), w)) ->
  forall xs acc w,
    for_each xs body acc w
    = (res_bind (res_map f xs) (fun ys => inr (acc ++ ys)), w).
Proof.
  intros Hbody. induction xs as [|x rest IH]; intros acc w; simpl.
  - unfold ret. rewrite app_nil_r. reflexivity.
  - unfold bind. rewrite Hbody.
    destruct (f x) as [e|y]; simpl; [reflexivity|].
    rewrite IH.
    destruct (res_map f rest) as [e|ys]; simpl; [reflexivity|].
    rewrite <- app_assoc. reflexivity.
Qed.

Lemma score_biased_pure model_name model_type model sentences w :
  score_biased model_name model_type model sentences w
  = (res_map (sentence_perplexity model_name model_type model) sentences, w).
Proof.
  unfold score_biased.
  rewrite (for_each_appends (sentence_perplexity model_name model_type model)).
  - destruct (res_map _ sentences); reflexivity.
  - intros acc x w0. unfold bind, lift, ret.
    destruct (sentence_perplexity model_name model_type model x); reflexivity.
Qed.

(** What one round of the outer loop computes for a list of opposing
    sentences. *)
Lemma score_opposing_pure model_name model_type model lists w :
  score_opposing model_name model_type model lists w
  = (res_map (fun sents =>
                res_bind (res_map (sentence_perplexity model_name model_type
                                                       model) sents)
                         tmp_mean)
             lists, w).
Proof.
  unfold score_opposing.
  rewrite (for_each_appends
             (fun sents =>
                res_bind (res_map (sentence_perplexity model_name model_type
                                                       model) sents)
                         tmp_mean)).
  - destruct (res_map _ lists); reflexivity.
  - intros acc sents w0. unfold bind at 1.
    rewrite (for_each_appends
               (sentence_perplexity model_name model_type model)).
    + destruct (res_map _ sents) as [e|tmp]; simpl; [reflexivity|].
      unfold bind, lift, ret.
      destruct (tmp_mean tmp); reflexivity.
    + intros acc' x w1. unfold bind, lift, ret.
      destruct (sentence_perplexity model_name model_type model x);
        reflexivity.
Qed.

Lemma tmp_mean_nonempty (tmp : list F) :
  tmp <> [] -> tmp_mean tmp = inr (mean tmp).
Proof.
  destruct tmp as [|x rest]; [congruence|reflexivity].
Qed.

Lemma sentence_perplexity_total model_name model_type model :
  model_type = "mlm" \/ model_type = "clm" ->
  exists ppl : string -> F,
    forall s, sentence_perplexity model_name model_type model s = inr (ppl s).
Proof.
  intros [-> | ->].
  - eexists. intros s. unfold sentence_perplexity, tensor_input. simpl.
    reflexivity.
  - eexists. intros s. unfold sentence_perplexity, tensor_input. simpl.
    reflexivity.
Qed.

End LoopFacts.

(** ** The call as a whole *)

Section CallFacts.

Context `{hub : Hub}.

Lemma model_family_cases model_name language_model model_type :
  model_family model_name = inr (language_model, model_type) ->
  (language_model = "BERT" /\ model_type = "mlm")
  \/ (language_model = "GPT-2" /\ model_type = "clm").
Proof.
  unfold model_family.
  destruct (PyStr.contains "bert" model_name);
    [|destruct (PyStr.contains "gpt2" model_name)];
    intros E; try discriminate; injection E as <- <-; auto.
Qed.

Lemma select_strategy_falsy adapter_dir1 adapter_dir2 :
  PyOpt.truthy adapter_dir1 = false ->
  exists msg, select_strategy adapter_dir1 adapter_dir2 = inl (TypeError msg).
Proof.
  intros Hf. unfold select_strategy. rewrite Hf. simpl. eexists. reflexivity.
Qed.

Lemma select_strategy_assigned adapter_dir1 adapter_dir2 strategy :
  select_strategy adapter_dir1 adapter_dir2 = inr (Some strategy) ->
  exists d1, adapter_dir1 = Some d1
             /\ (strategy = "Args.me" \/ strategy = "Wikipedia").
Proof.
  unfold select_strategy.
  destruct (PyOpt.truthy adapter_dir1) eqn:Ht; simpl; [|discriminate].
  destruct adapter_dir1 as [d1|]; simpl; [|discriminate].
  destruct (PyStr.contains "argsme" d1);
    [|destruct (PyStr.contains "wiki" d1)];
    intros E; try discriminate; injection E as <-; eauto.
Qed.

Lemma select_strategy_corpus d1 adapter_dir2 :
  PyStr.contains "argsme" d1 = true \/ PyStr.contains "wiki" d1 = true ->
  exists strategy,
    select_strategy (Some d1) adapter_dir2 = inr (Some strategy).
Proof.
  intros Hc. unfold select_strategy.
  assert (Ht : PyOpt.truthy (Some d1) = true).
  { destruct d1; [destruct Hc; discriminate|reflexivity]. }
  rewrite Ht. simpl.
  destruct (PyStr.contains "argsme" d1); [eauto|].
  destruct Hc as [Hc|Hc]; [discriminate|rewrite Hc; eauto].
Qed.

Lemma load_single_adapter model_name model_type strategy d1 adapter_dir2
      (w : World) :
  model_type = "mlm" \/ model_type = "clm" ->
  strategy = "Args.me" \/ strategy = "Wikipedia" ->
  load_trained_model model_name model_type strategy (Some d1) adapter_dir2 w
  = (inr (single_adapter_model model_name model_type (all_adapters_dir w) d1),
     mkWorld (all_adapters_dir w) (all_results w)
       (trace w ++
          [ FromPretrained
              (Model.auto_class
                 (single_adapter_model model_name model_type
                                       (all_adapters_dir w) d1))
              model_name;
            LoadAdapter (all_adapters_dir w ++ d1 ++ "/mlm")%string
                        "model_adapter" true;
            SetActiveAdapters "model_adapter" ])).
Proof.
  intros [-> | ->] [-> | ->]; cbn; repeat rewrite <- app_assoc; reflexivity.
Qed.

(** The world in which the two loops run: the globals after the model and
    the tokenizer were loaded. *)
Lemma call_reaches_scoring model_name language_model model_type test_df
      bias_type d1 adapter_dir2 strategy (w : World) :
  model_family model_name = inr (language_model, model_type) ->
  select_strategy (Some d1) adapter_dir2 = inr (Some strategy) ->
  exists events : list event,
    let model := single_adapter_model model_name model_type
                                      (all_adapters_dir w) d1 in
    let w1 := mkWorld (all_adapters_dir w) (all_results w)
                      (trace w ++ events) in
    events =
      [ Print ("Evaluate Results for " ++ language_model ++ " on "
               ++ strategy ++ " Corpora concerning " ++ bias_type)%string;
        Print "Load trained model.....";
        FromPretrained (Model.auto_class model) model_name;
        LoadAdapter (all_adapters_dir w ++ d1 ++ "/mlm")%string
                    "model_adapter" true;
        SetActiveAdapters "model_adapter";
        Print "Model loaded successfully!";
        TokenizerFromPretrained model_name;
        Print "Calculate Perplexity Scores....." ]
    /\ calculatePerplexity model_name test_df bias_type (Some d1)
                           adapter_dir2 w
       = bind (score_biased model_name model_type model
                            (map Prepared.Biased_Sentence test_df))
              (fun pps_biased_sents =>
                 bind (score_opposing model_name model_type model
                         (map Prepared.Opposing_Sentence test_df))
                      (fun pps_opp_biased_sents =>
                         bind (emit (Print "Perplexity Scores calculated successfully!"))
                              (fun _ =>
                                 let t := t_test pps_biased_sents
                                                 pps_opp_biased_sents in
                                 let result := result_of language_model
                                                         bias_type strategy t in
                                 bind (append_result result) (fun _ =>
                                 bind (emit (Print ("Paired t-test of "
                                                    ++ language_model)%string))
                                      (fun _ =>
                                 bind (emit (table_of t)) (fun _ =>
                                 ret result))))))
              w1.
Proof.
  intros Hfam Hsel.
  pose proof (model_family_cases _ _ _ Hfam) as Hmt.
  destruct (select_strategy_assigned _ _ _ Hsel) as (d & Hd & Hs).
  injection Hd as <-.
  assert (Hmt' : model_type = "mlm" \/ model_type = "clm")
    by (destruct Hmt as [[_ ->]|[_ ->]]; auto).
  eexists. cbv zeta. split; [reflexivity|].
  unfold calculatePerplexity.
  unfold bind at 1. unfold lift at 1. rewrite Hfam. cbn [fst snd].
  unfold bind at 1. unfold lift at 1. rewrite Hsel.
  unfold bind at 1. cbn [read_local]. unfold ret at 1.
  unfold bind at 1. cbn [emit].
  unfold bind at 1. cbn [emit].
  unfold bind at 1. rewrite (load_single_adapter _ _ _ _ _ _ Hmt' Hs).
  unfold bind at 1. cbn [emit].
  unfold bind at 1. cbn [emit].
  unfold bind at 1. cbn [emit].
  cbn [all_adapters_dir all_results trace].
  repeat rewrite <- app_assoc. cbn [app].
  unfold bind.
  destruct (score_biased _ _ _ _ _) as [[e|pps_b] w2]; [reflexivity|].
  destruct (score_opposing _ _ _ _ _) as [[e|pps_o] w3]; [reflexivity|].
  cbn [emit]. unfold result_of, table_of.
  destruct (t_test pps_b pps_o) as [[[[ttest pval] num_samples] mean_bs] mean_os].
  reflexivity.
Qed.

(** The outcome of a call whose model name is recognised, whose strategy
    is assigned and whose rows all have opposing sentences. *)
Lemma call_outcome model_name language_model model_type test_df bias_type
      d1 adapter_dir2 strategy (w : World) :
  model_family model_name = inr (language_model, model_type) ->
  select_strategy (Some d1) adapter_dir2 = inr (Some strategy) ->
  Forall (fun r => Prepared.Opposing_Sentence r <> []) test_df ->
  exists (ppl : string -> F) (events : list event),
    let model := single_adapter_model model_name model_type
                                      (all_adapters_dir w) d1 in
    let t := t_test (map (fun r => ppl (Prepared.Biased_Sentence r)) test_df)
                    (map (fun r => mean (map ppl (Prepared.Opposing_Sentence r)))
                         test_df) in
    let result := result_of language_model bias_type strategy t in
    (forall x, sentence_perplexity model_name model_type model x
               = inr (ppl x))
    /\ events =
         [ Print ("Evaluate Results for " ++ language_model ++ " on "
                  ++ strategy ++ " Corpora concerning " ++ bias_type)%string;
           Print "Load trained model.....";
           FromPretrained (Model.auto_class model) model_name;
           LoadAdapter (all_adapters_dir w ++ d1 ++ "/mlm")%string
                       "model_adapter" true;
           SetActiveAdapters "model_adapter";
           Print "Model loaded successfully!";
           TokenizerFromPretrained model_name;
           Print "Calculate Perplexity Scores.....";
           Print "Perplexity Scores calculated successfully!";
           Print ("Paired t-test of " ++ language_model)%string;
           table_of t ]
    /\ calculatePerplexity model_name test_df bias_type (Some d1)
                           adapter_dir2 w
       = (inr result,
          mkWorld (all_adapters_dir w) (all_results w ++ [result])
                  (trace w ++ events)).
Proof.
  intros Hfam Hsel Hrows.
  pose proof (model_family_cases _ _ _ Hfam) as Hmt.
  destruct (call_reaches_scoring _ _ _ test_df bias_type _ _ _ w Hfam Hsel)
    as (evs & Hevs & ->). cbv zeta in Hevs.
  destruct (sentence_perplexity_total model_name model_type
              (single_adapter_model model_name model_type
                                    (all_adapters_dir w) d1))
    as [ppl Hppl].
  { destruct Hmt as [[_ ->]|[_ ->]]; auto. }
  exists ppl. eexists. cbv zeta. split; [exact Hppl|]. split; [reflexivity|].
  unfold bind at 1. rewrite score_biased_pure.
  rewrite (res_map_total _ ppl) by (intros; apply Hppl).
  unfold bind at 1. rewrite score_opposing_pure.
  rewrite (res_map_total _ (fun sents => mean (map ppl sents))).
  2:{ intros sents Hin.
      rewrite (res_map_total _ ppl) by (intros; apply Hppl). simpl.
      apply tmp_mean_nonempty.
      apply in_map_iff in Hin. destruct Hin as (r & <- & Hr).
      rewrite Forall_forall in Hrows. specialize (Hrows r Hr).
      destruct (Prepared.Opposing_Sentence r); [congruence|discriminate]. }
  rewrite !map_map.
  unfold bind, append_result, emit, ret. cbn.
  rewrite Hevs. repeat rewrite <- app_assoc. reflexivity.
Qed.

Lemma opposing_means_fail (f : string -> res F) (ppl : string -> F)
      (lists : list (list string)) :
  (forall s, f s = inr (ppl s)) ->
  Exists (fun sents => sents = []) lists ->
  res_map (fun sents => res_bind (res_map f sents) tmp_mean) lists
  = inl ZeroDivisionError.
Proof.
  intros Hf. induction lists as [|sents rest IH]; intros Hex.
  - inversion Hex.
  - simpl. destruct sents as [|s more].
    + reflexivity.
    + rewrite (res_map_total f ppl) by (intros; apply Hf).
      cbn [res_bind tmp_mean map].
      rewrite IH; [reflexivity|].
      inversion Hex; subst; [discriminate|assumption].
Qed.

Lemma rows_all_or_some_empty (test_df : list Prepared.t) :
  Forall (fun r => Prepared.Opposing_Sentence r <> []) test_df
  \/ Exists (fun r => Prepared.Opposing_Sentence r = []) test_df.
Proof.
  induction test_df as [|r rest [IH|IH]].
  - left. constructor.
  - destruct (Prepared.Opposing_Sentence r) as [|s more] eqn:Er.
    + right. apply Exists_cons_hd. exact Er.
    + left. constructor; [rewrite Er; discriminate|exact IH].
  - right. apply Exists_cons_tl. exact IH.
Qed.

(** The outcome of a call that gets as far as the loops and meets a row
    without opposing sentences. *)
Lemma call_zero_division model_name language_model model_type test_df
      bias_type d1 adapter_dir2 strategy (w : World) :
  model_family model_name = inr (language_model, model_type) ->
  select_strategy (Some d1) adapter_dir2 = inr (Some strategy) ->
  Exists (fun r => Prepared.Opposing_Sentence r = []) test_df ->
  exists events,
    events =
      [ Print ("Evaluate Results for " ++ language_model ++ " on "
               ++ strategy ++ " Corpora concerning " ++ bias_type)%string;
        Print "Load trained model.....";
        FromPretrained
          (Model.auto_class
             (single_adapter_model model_name model_type
                                   (all_adapters_dir w) d1))
          model_name;
        LoadAdapter (all_adapters_dir w ++ d1 ++ "/mlm")%string
                    "model_adapter" true;
        SetActiveAdapters "model_adapter";
        Print "Model loaded successfully!";
        TokenizerFromPretrained model_name;
        Print "Calculate Perplexity Scores....." ]
    /\ calculatePerplexity model_name test_df bias_type (Some d1)
                           adapter_dir2 w
       = (inl ZeroDivisionError,
          mkWorld (all_adapters_dir w) (all_results w) (trace w ++ events)).
Proof.
  intros Hfam Hsel Hrows.
  pose proof (model_family_cases _ _ _ Hfam) as Hmt.
  destruct (call_reaches_scoring _ _ _ test_df bias_type _ _ _ w Hfam Hsel)
    as (evs & Hevs & ->). cbv zeta in Hevs.
  destruct (sentence_perplexity_total model_name model_type
              (single_adapter_model model_name model_type
                                    (all_adapters_dir w) d1))
    as [ppl Hppl].
  { destruct Hmt as [[_ ->]|[_ ->]]; auto. }
  exists evs. split; [exact Hevs|].
  unfold bind at 1. rewrite score_biased_pure.
  rewrite (res_map_total _ ppl) by (intros; apply Hppl).
  unfold bind at 1. rewrite score_opposing_pure.
  rewrite (opposing_means_fail _ ppl); [reflexivity|exact Hppl|].
  apply Exists_exists in Hrows. destruct Hrows as (r & Hr & Hempty).
  apply Exists_exists. exists (Prepared.Opposing_Sentence r).
  split; [apply in_map; exact Hr|exact Hempty].
Qed.

(** Every call that raises before the loops leaves the globals as they
    were. *)
Lemma call_setup_failure model_name test_df bias_type adapter_dir1
      adapter_dir2 (w : World) :
  (exists e, model_family model_name = inl e)
  \/ (exists e, select_strategy adapter_dir1 adapter_dir2 = inl e)
  \/ select_strategy adapter_dir1 adapter_dir2 = inr None ->
  exists e,
    calculatePerplexity model_name test_df bias_type adapter_dir1
                        adapter_dir2 w = (inl e, w).
Proof.
  intros Hfail. unfold calculatePerplexity.
  unfold bind at 1. unfold lift at 1.
  destruct (model_family model_name) as [e|family] eqn:Hfam; [eauto|].
  unfold bind at 1. unfold lift at 1.
  destruct Hfail as [[e He]|[[e He]|Hn]]; [discriminate| |].
  - rewrite He. eauto.
  - rewrite Hn. unfold bind at 1. cbn. eauto.
Qed.

(** A call returns only if its model name was recognised, its strategy
    assigned from the first adapter directory, and every row has opposing
    sentences. *)
Lemma call_success_inv model_name test_df bias_type adapter_dir1
      adapter_dir2 (w w' : World) (r : Result) :
  calculatePerplexity model_name test_df bias_type adapter_dir1 adapter_dir2 w
  = (inr r, w') ->
  exists language_model model_type d1 strategy,
    model_family model_name = inr (language_model, model_type)
    /\ adapter_dir1 = Some d1
    /\ select_strategy (Some d1) adapter_dir2 = inr (Some strategy)
    /\ Forall (fun r => Prepared.Opposing_Sentence r <> []) test_df.
Proof.
  intros Hcall.
  destruct (model_family model_name) as [e|[language_model model_type]] eqn:Hfam.
  { destruct (call_setup_failure model_name test_df bias_type adapter_dir1
                                 adapter_dir2 w) as [e' He'].
    - left. exists e. exact Hfam.
    - congruence. }
  destruct (select_strategy adapter_dir1 adapter_dir2) as [e|[strategy|]] eqn:Hsel.
  - destruct (call_setup_failure model_name test_df bias_type adapter_dir1
                                 adapter_dir2 w) as [e' He']; [eauto|congruence].
  - destruct (select_strategy_assigned _ _ _ Hsel) as (d1 & -> & _).
    exists language_model, model_type, d1, strategy.
    repeat split; try assumption.
    apply Forall_forall. intros row Hrow Hempty.
    destruct (call_zero_division _ _ _ test_df bias_type _ _ _ w Hfam Hsel)
      as (evs & _ & Hfail).
    + apply Exists_exists. eauto.
    + congruence.
  - destruct (call_setup_failure model_name test_df bias_type adapter_dir1
                                 adapter_dir2 w) as [e' He']; [auto|congruence].
Qed.

End CallFacts.

(** ** Strategy selection and model loading *)

(** C1 (the code departs from it): the specification asks for 'stacking'
    whenever both adapter directories are given and for 'original' when
    none is.
    The code never selects 'stacking', whatever the two arguments are:
    with both directories given the first branch decides and the strategy
    is that of the first directory alone, and when the first directory is
    missing the test [adapter_dir1 & adapter_dir2] raises a [TypeError], so
    'original' is not selected either. *)
Theorem stacking_is_never_selected :
  (forall adapter_dir1 adapter_dir2 strategy,
      select_strategy adapter_dir1 adapter_dir2 = inr (Some strategy) ->
      strategy <> "stacking" /\ strategy <> "original")
  /\ select_strategy (Some "/bert_argsme_adapter") (Some "/bert_wiki_adapter")
     = inr (Some "Args.me")
  /\ select_strategy None None
     = inl (TypeError
              "unsupported operand type(s) for &: 'NoneType' and 'NoneType'")
  /\ (forall adapter_dir2,
         exists msg, select_strategy None adapter_dir2 = inl (TypeError msg)).
Proof.
  split; [|split; [reflexivity|split; [reflexivity|]]].
  - intros a1 a2 s Hs.
    destruct (select_strategy_assigned _ _ _ Hs) as (_ & _ & [-> | ->]);
      split; discriminate.
  - intros a2. apply select_strategy_falsy. reflexivity.
Qed.

Section EvaluatorProperties.

Context `{hub : Hub}.

(** C2: a model name that contains neither 'bert' nor 'gpt2' makes the
    call raise on the undefined name [InputError]; no model or tokenizer
    is loaded, nothing is printed or scored, and [all_results] is as
    before: the globals are unchanged. *)
Theorem unrecognized_model_raises model_name test_df bias_type
        adapter_dir1 adapter_dir2 (w : World) :
  PyStr.contains "bert" model_name = false ->
  PyStr.contains "gpt2" model_name = false ->
  calculatePerplexity model_name test_df bias_type adapter_dir1 adapter_dir2 w
  = (inl (NameError "InputError"), w).
Proof.
  intros Hbert Hgpt. unfold calculatePerplexity, model_family.
  rewrite Hbert, Hgpt. reflexivity.
Qed.

(** C9: with a non-empty first adapter directory that contains neither
    'argsme' nor 'wiki', no branch assigns [strategy]; no such call
    returns, and when the model name is recognised the call raises
    [UnboundLocalError] at the first use of [strategy], before anything is
    printed or loaded. *)
Theorem unknown_corpus_leaves_strategy_unbound model_name test_df bias_type
        d1 adapter_dir2 (w : World) :
  d1 <> "" ->
  PyStr.contains "argsme" d1 = false ->
  PyStr.contains "wiki" d1 = false ->
  select_strategy (Some d1) adapter_dir2 = inr None
  /\ (exists e,
         calculatePerplexity model_name test_df bias_type (Some d1)
                             adapter_dir2 w = (inl e, w))
  /\ (PyStr.contains "bert" model_name = true
      \/ PyStr.contains "gpt2" model_name = true ->
      calculatePerplexity model_name test_df bias_type (Some d1)
                          adapter_dir2 w
      = (inl (UnboundLocalError "strategy"), w)).
Proof.
  intros Hne Hargs Hwiki.
  assert (Hsel : select_strategy (Some d1) adapter_dir2 = inr None).
  { unfold select_strategy.
    assert (Ht : PyOpt.truthy (Some d1) = true).
    { destruct d1; [congruence|reflexivity]. }
    rewrite Ht. simpl. rewrite Hargs, Hwiki. reflexivity. }
  split; [exact Hsel|]. split.
  - apply call_setup_failure. right. right. exact Hsel.
  - intros Hname. unfold calculatePerplexity.
    unfold bind at 1. unfold lift at 1.
    assert (Hfam : exists family, model_family model_name = inr family).
    { unfold model_family.
      destruct (PyStr.contains "bert" model_name); [eauto|].
      destruct Hname as [Hb|Hg]; [discriminate|rewrite Hg; eauto]. }
    destruct Hfam as [family ->].
    unfold bind at 1. unfold lift at 1. rewrite Hsel.
    reflexivity.
Qed.

(** C10: for a causal model the single-adapter branch loads the adapter
    from [all_adapters_dir + adapter_dir1 + '/mlm'], the same path as for a
    masked model, while the stacking branch of the causal model loads both
    adapters from paths ending in '/clm'; and a call for a 'gpt2' model
    with an 'argsme' or 'wiki' adapter directory loads from the '/mlm'
    path. *)
Theorem causal_single_adapter_path_suffix model_name strategy test_df
        bias_type d1 d2 adapter_dir2 (w : World) :
  strategy = "Args.me" \/ strategy = "Wikipedia" ->
  snd (load_trained_model model_name "clm" strategy (Some d1) adapter_dir2 w)
  = mkWorld (all_adapters_dir w) (all_results w)
      (trace w ++
         [ FromPretrained "AutoModelForCausalLM" model_name;
           LoadAdapter (all_adapters_dir w ++ d1 ++ "/mlm")%string
                       "model_adapter" true;
           SetActiveAdapters "model_adapter" ])
  /\ snd (load_trained_model model_name "mlm" strategy (Some d1)
                             adapter_dir2 w)
     = mkWorld (all_adapters_dir w) (all_results w)
         (trace w ++
            [ FromPretrained "AutoModelForMaskedLM" model_name;
              LoadAdapter (all_adapters_dir w ++ d1 ++ "/mlm")%string
                          "model_adapter" true;
              SetActiveAdapters "model_adapter" ])
  /\ snd (load_trained_model model_name "clm" "stacking" (Some d1)
                             (Some d2) w)
     = mkWorld (all_adapters_dir w) (all_results w)
         (trace w ++
            [ FromPretrained "AutoModelForCausalLM" model_name;
              LoadAdapter (all_adapters_dir w ++ d1 ++ "/clm")%string
                          "model_adapter1" false;
              LoadAdapter (all_adapters_dir w ++ d2 ++ "/clm")%string
                          "model_adapter2" false;
              ActivateStack "model_adapter1" "model_adapter2" ])
  /\ (PyStr.contains "bert" model_name = false ->
      PyStr.contains "gpt2" model_name = true ->
      PyStr.contains "argsme" d1 = true \/ PyStr.contains "wiki" d1 = true ->
      exists events,
        trace (snd (calculatePerplexity model_name test_df bias_type
                                        (Some d1) adapter_dir2 w))
        = trace w ++ events
        /\ In (LoadAdapter (all_adapters_dir w ++ d1 ++ "/mlm")%string
                           "model_adapter" true) events
        /\ forall path load_as with_head,
             In (LoadAdapter path load_as with_head) events ->
             path = (all_adapters_dir w ++ d1 ++ "/mlm")%string).
Proof.
  intros Hs. repeat split.
  - destruct Hs as [-> | ->]; cbn; repeat rewrite <- app_assoc; reflexivity.
  - destruct Hs as [-> | ->]; cbn; repeat rewrite <- app_assoc; reflexivity.
  - cbn. repeat rewrite <- app_assoc. reflexivity.
  - intros Hbert Hgpt Hcorpus.
    assert (Hfam : model_family model_name = inr ("GPT-2", "clm")).
    { unfold model_family. rewrite Hbert, Hgpt. reflexivity. }
    destruct (select_strategy_corpus d1 adapter_dir2 Hcorpus) as [s Hsel].
    destruct (rows_all_or_some_empty test_df) as [Hall|Hex].
    + destruct (call_outcome _ _ _ test_df bias_type _ _ _ w Hfam Hsel Hall)
        as (ppl & evs & _ & Hevs & ->).
      exists evs. cbn [snd trace]. split; [reflexivity|].
      rewrite Hevs. split; [simpl; auto 10|].
      intros path load_as with_head Hin. simpl in Hin.
      repeat (destruct Hin as [Hin|Hin]; [try discriminate Hin|]);
        try contradiction.
      * injection Hin as <- _ _. reflexivity.
      * unfold table_of in Hin.
        destruct (t_test _ _) as [[[[? ?] ?] ?] ?]. discriminate Hin.
    + destruct (call_zero_division _ _ _ test_df bias_type _ _ _ w
                                   Hfam Hsel Hex)
        as (evs & Hevs & ->).
      exists evs. cbn [snd trace]. split; [reflexivity|].
      rewrite Hevs. split; [simpl; auto 10|].
      intros path load_as with_head Hin. simpl in Hin.
      repeat (destruct Hin as [Hin|Hin]; [try discriminate Hin|]);
        try contradiction.
      injection Hin as <- _ _. reflexivity.
Qed.

(** C4: in a call that gets through, every opposing sentence of a row is
    scored on its own, the row contributes one value to the opposing
    side, the mean of those scores, at the position at which the biased
    side holds the score of the row's biased sentence, and the two
    sequences, one value per row each, are what [t_test] compares. *)
Theorem opposing_side_is_row_means model_name language_model model_type
        test_df bias_type d1 adapter_dir2 strategy (w : World) :
  model_family model_name = inr (language_model, model_type) ->
  select_strategy (Some d1) adapter_dir2 = inr (Some strategy) ->
  Forall (fun r => Prepared.Opposing_Sentence r <> []) test_df ->
  exists (model : Model.t) (pps_biased_sents pps_opp_biased_sents : list F)
         (w' : World),
    Forall2 (fun r p =>
               sentence_perplexity model_name model_type model
                                   (Prepared.Biased_Sentence r) = inr p)
            test_df pps_biased_sents
    /\ Forall2 (fun r m =>
                  exists tmp,
                    Forall2 (fun sentence p =>
                               sentence_perplexity model_name model_type model
                                                   sentence = inr p)
                            (Prepared.Opposing_Sentence r) tmp
                    /\ m = mean tmp)
               test_df pps_opp_biased_sents
    /\ length pps_opp_biased_sents = length test_df
    /\ length pps_biased_sents = length test_df
    /\ (forall w0,
           score_opposing model_name model_type model
                          (map Prepared.Opposing_Sentence test_df) w0
           = (inr pps_opp_biased_sents, w0))
    /\ calculatePerplexity model_name test_df bias_type (Some d1)
                           adapter_dir2 w
       = (inr (result_of language_model bias_type strategy
                         (t_test pps_biased_sents pps_opp_biased_sents)),
          w').
Proof.
  intros Hfam Hsel Hrows.
  destruct (call_outcome _ _ _ test_df bias_type _ _ _ w Hfam Hsel Hrows)
    as (ppl & evs & Hppl & _ & Hcall).
  eexists. eexists. eexists. eexists.
  split; [|split; [|split; [|split; [|split; [|exact Hcall]]]]].
  - clear Hcall Hrows. induction test_df as [|r rest IH]; simpl; constructor.
    + apply Hppl.
    + exact IH.
  - clear Hcall Hrows. induction test_df as [|r rest IH]; simpl; constructor.
    + exists (map ppl (Prepared.Opposing_Sentence r)). split; [|reflexivity].
      induction (Prepared.Opposing_Sentence r) as [|s more IHs]; simpl;
        constructor; [apply Hppl|exact IHs].
    + exact IH.
  - apply length_map.
  - apply length_map.
  - intros w0. rewrite score_opposing_pure.
    rewrite (res_map_total _ (fun sents => mean (map ppl sents))).
    + rewrite map_map. reflexivity.
    + intros sents Hin.
      rewrite (res_map_total _ ppl) by (intros; apply Hppl). simpl.
      apply tmp_mean_nonempty.
      apply in_map_iff in Hin. destruct Hin as (r & <- & Hr).
      rewrite Forall_forall in Hrows. specialize (Hrows r Hr).
      destruct (Prepared.Opposing_Sentence r); [congruence|discriminate].
Qed.

(** C7: a call that returns has appended its one result record, with the
    model family, the bias type, the strategy and the five values of
    [t_test], at the end of [all_results]; [all_adapters_dir] is as before;
    and the call did nothing else than print nine lines and a table and
    read the model, one adapter and the tokenizer. *)
Theorem successful_call_appends_one_result model_name test_df bias_type
        adapter_dir1 adapter_dir2 (w w' : World) (r : Result) :
  calculatePerplexity model_name test_df bias_type adapter_dir1 adapter_dir2 w
  = (inr r, w') ->
  all_results w' = all_results w ++ [r]
  /\ all_adapters_dir w' = all_adapters_dir w
  /\ exists language_model model_type d1 strategy t auto_class,
       model_family model_name = inr (language_model, model_type)
       /\ adapter_dir1 = Some d1
       /\ select_strategy adapter_dir1 adapter_dir2 = inr (Some strategy)
       /\ r = result_of language_model bias_type strategy t
       /\ trace w' =
          trace w ++
            [ Print ("Evaluate Results for " ++ language_model ++ " on "
                     ++ strategy ++ " Corpora concerning " ++ bias_type)%string;
              Print "Load trained model.....";
              FromPretrained auto_class model_name;
              LoadAdapter (all_adapters_dir w ++ d1 ++ "/mlm")%string
                          "model_adapter" true;
              SetActiveAdapters "model_adapter";
              Print "Model loaded successfully!";
              TokenizerFromPretrained model_name;
              Print "Calculate Perplexity Scores.....";
              Print "Perplexity Scores calculated successfully!";
              Print ("Paired t-test of " ++ language_model)%string;
              table_of t ].
Proof.
  intros Hcall.
  destruct (call_success_inv _ _ _ _ _ _ _ _ Hcall)
    as (language_model & model_type & d1 & strategy & Hfam & -> & Hsel & Hrows).
  destruct (call_outcome _ _ _ test_df bias_type _ _ _ w Hfam Hsel Hrows)
    as (ppl & evs & _ & Hevs & Hout).
  rewrite Hout in Hcall. injection Hcall as <- <-.
  cbn [all_results all_adapters_dir trace].
  split; [reflexivity|]. split; [reflexivity|].
  exists language_model, model_type, d1, strategy.
  eexists. eexists.
  split; [exact Hfam|]. split; [reflexivity|]. split; [exact Hsel|].
  split; [reflexivity|].
  rewrite Hevs. reflexivity.
Qed.

(** C8: a frame with a row whose list of opposing sentences is empty
    never yields a result: every call on it raises and leaves
    [all_results] as it was; and a call that gets as far as the loops
    (model name recognised, strategy assigned) raises
    [ZeroDivisionError]. *)
Theorem empty_opposing_list_divides_by_zero model_name test_df bias_type
        adapter_dir1 adapter_dir2 (w : World) :
  Exists (fun r => Prepared.Opposing_Sentence r = []) test_df ->
  (exists e w',
      calculatePerplexity model_name test_df bias_type adapter_dir1
                          adapter_dir2 w = (inl e, w')
      /\ all_results w' = all_results w)
  /\ (forall family strategy,
         model_family model_name = inr family ->
         select_strategy adapter_dir1 adapter_dir2 = inr (Some strategy) ->
         exists w',
           calculatePerplexity model_name test_df bias_type adapter_dir1
                               adapter_dir2 w = (inl ZeroDivisionError, w')
           /\ all_results w' = all_results w).
Proof.
  intros Hex.
  assert (Hzero : forall family strategy,
             model_family model_name = inr family ->
             select_strategy adapter_dir1 adapter_dir2 = inr (Some strategy) ->
             exists w',
               calculatePerplexity model_name test_df bias_type adapter_dir1
                                   adapter_dir2 w = (inl ZeroDivisionError, w')
               /\ all_results w' = all_results w).
  { intros [language_model model_type] strategy Hfam Hsel.
    destruct (select_strategy_assigned _ _ _ Hsel) as (d1 & -> & _).
    destruct (call_zero_division _ _ _ test_df bias_type _ _ _ w
                                 Hfam Hsel Hex) as (evs & _ & ->).
    eexists. split; reflexivity. }
  split; [|exact Hzero].
  destruct (model_family model_name) as [e|family] eqn:Hfam.
  { destruct (call_setup_failure model_name test_df bias_type adapter_dir1
                                 adapter_dir2 w) as [e' He'].
    - left. exists e. exact Hfam.
    - exists e', w. split; [exact He'|reflexivity]. }
  destruct (select_strategy adapter_dir1 adapter_dir2) as [e|[strategy|]] eqn:Hsel.
  - destruct (call_setup_failure model_name test_df bias_type adapter_dir1
                                 adapter_dir2 w) as [e' He']; [eauto|].
    exists e', w. split; [exact He'|reflexivity].
  - destruct (Hzero family strategy eq_refl eq_refl) as (w' & Hw' & Hres).
    exists ZeroDivisionError, w'. split; assumption.
  - destruct (call_setup_failure model_name test_df bias_type adapter_dir1
                                 adapter_dir2 w) as [e' He']; [auto|].
    exists e', w. split; [exact He'|reflexivity].
Qed.

End EvaluatorProperties.

(** ** Perplexity in single precision *)

Section ExponentialBounds.

Local Open Scope R_scope.

Lemma exp_pow (x : R) (n : nat) : exp x ^ n = exp (INR n * x).
Proof.
  induction n as [|n IH].
  - simpl. rewrite Rmult_0_l, exp_0. reflexivity.
  - rewrite S_INR, Rmult_plus_distr_r, Rmult_1_l, exp_plus, <- IH.
    simpl. ring.
Qed.

(** Comparing a power of a fraction with an integer, on integers. *)
Lemma ratio_pow_le (a b c : Z) (n : nat) :
  (0 < b)%Z -> (a ^ Z.of_nat n <= c * b ^ Z.of_nat n)%Z ->
  (IZR a / IZR b) ^ n <= IZR c.
Proof.
  intros Hb Hle.
  assert (Hb' : 0 < IZR b) by (apply IZR_lt; exact Hb).
  apply (Rmult_le_reg_r (IZR b ^ n)); [apply pow_lt; exact Hb'|].
  rewrite <- Rpow_mult_distr.
  replace (IZR a / IZR b * IZR b) with (IZR a)
    by (field; apply Rgt_not_eq; exact Hb').
  rewrite !pow_IZR, <- mult_IZR. apply IZR_le. exact Hle.
Qed.

Lemma ratio_pow_ge (a b c : Z) (n : nat) :
  (0 < b)%Z -> (c * b ^ Z.of_nat n <= a ^ Z.of_nat n)%Z ->
  IZR c <= (IZR a / IZR b) ^ n.
Proof.
  intros Hb Hle.
  assert (Hb' : 0 < IZR b) by (apply IZR_lt; exact Hb).
  apply (Rmult_le_reg_r (IZR b ^ n)); [apply pow_lt; exact Hb'|].
  rewrite <- Rpow_mult_distr.
  replace (IZR a / IZR b * IZR b) with (IZR a)
    by (field; apply Rgt_not_eq; exact Hb').
  rewrite !pow_IZR, <- mult_IZR. apply IZR_le. exact Hle.
Qed.

Lemma exp_64th : exp (1 / 64) <= 64 / 63.
Proof.
  pose proof (exp_ineq1_le (- (1 / 64))) as Hlow.
  pose proof (exp_pos (1 / 64)) as Hpos.
  assert (Hone : exp (1 / 64) * exp (- (1 / 64)) = 1).
  { rewrite <- exp_plus. replace (1 / 64 + - (1 / 64)) with 0 by lra.
    apply exp_0. }
  apply (Rmult_le_reg_r (63 / 64)); [lra|].
  replace (64 / 63 * (63 / 64)) with 1 by lra.
  apply Rle_trans with (exp (1 / 64) * exp (- (1 / 64)));
    [apply Rmult_le_compat_l; lra|right; exact Hone].
Qed.

Lemma exp_multiple_64th (n : nat) (x : R) (c : Z) :
  INR n * (1 / 64) = x ->
  (64 ^ Z.of_nat n <= c * 63 ^ Z.of_nat n)%Z ->
  exp x <= IZR c.
Proof.
  intros <- Hle. rewrite <- exp_pow.
  apply Rle_trans with ((64 / 63) ^ n).
  - apply pow_incr. split; [left; apply exp_pos|apply exp_64th].
  - apply (ratio_pow_le 64 63 c n); [reflexivity|exact Hle].
Qed.

Lemma exp_11 : exp 11 <= 65400.
Proof.
  apply (exp_multiple_64th 704).
  - rewrite INR_IZR_INZ. simpl. lra.
  - vm_compute. discriminate.
Qed.

Lemma exp_4 : exp 4 <= 57.
Proof.
  apply (exp_multiple_64th 256).
  - rewrite INR_IZR_INZ. simpl. lra.
  - vm_compute. discriminate.
Qed.

Lemma exp_88 : exp 88 < RealScalar.overflow_bound.
Proof.
  replace 88 with (INR 8 * 11) by (simpl; lra).
  rewrite <- exp_pow.
  apply Rle_lt_trans with (65400 ^ 8).
  - apply pow_incr. split; [left; apply exp_pos|apply exp_11].
  - unfold RealScalar.overflow_bound. rewrite pow_IZR. apply IZR_lt.
    vm_compute. reflexivity.
Qed.

Lemma exp_103 : exp 103 < IZR (2 ^ 150).
Proof.
  replace 103 with (INR 9 * 11 + 4) by (simpl; lra).
  rewrite exp_plus, <- exp_pow.
  apply Rle_lt_trans with (65400 ^ 9 * 57).
  - apply Rmult_le_compat.
    + left. apply pow_lt. apply exp_pos.
    + left. apply exp_pos.
    + apply pow_incr. split; [left; apply exp_pos|apply exp_11].
    + apply exp_4.
  - rewrite pow_IZR, <- mult_IZR. apply IZR_lt. vm_compute. reflexivity.
Qed.

Lemma exp_minus_103 : RealScalar.underflow_bound < exp (- 103).
Proof.
  unfold RealScalar.underflow_bound.
  replace (-103) with (Ropp 103) by lra.
  rewrite exp_Ropp.
  apply Rinv_0_lt_contravar; [apply exp_pos|apply exp_103].
Qed.

(** Between -103 and 88 the exponential stays inside the range. *)
Lemma exp_in_range (x : R) :
  - 103 <= x <= 88 ->
  RealScalar.underflow_bound < exp x < RealScalar.overflow_bound.
Proof.
  intros [Hlo Hhi]. split.
  - apply Rlt_le_trans with (exp (- 103)); [apply exp_minus_103|].
    destruct Hlo as [Hlo| <-];
      [left; apply exp_increasing; exact Hlo|right; reflexivity].
  - apply Rle_lt_trans with (exp 88); [|apply exp_88].
    destruct Hhi as [Hhi| ->];
      [left; apply exp_increasing; exact Hhi|right; reflexivity].
Qed.

Lemma exp_100 : RealScalar.overflow_bound <= exp 100.
Proof.
  replace 100 with (INR 800 * (1 / 8)) by (rewrite INR_IZR_INZ; simpl; lra).
  rewrite <- exp_pow.
  apply Rle_trans with ((9 / 8) ^ 800).
  - apply (ratio_pow_ge 9 8 _ 800); [reflexivity|]. vm_compute. discriminate.
  - apply pow_incr. split; [lra|].
    pose proof (exp_ineq1_le (1 / 8)). lra.
Qed.

Lemma exp_minus_200 : exp (- 200) <= RealScalar.underflow_bound.
Proof.
  unfold RealScalar.underflow_bound.
  replace (-200) with (Ropp 200) by lra.
  rewrite exp_Ropp.
  apply Rinv_le_contravar; [apply IZR_lt; reflexivity|].
  replace 200 with (INR 200 * 1) by (rewrite INR_IZR_INZ; simpl; lra).
  rewrite <- exp_pow.
  apply Rle_trans with (2 ^ 200).
  - rewrite pow_IZR. apply IZR_le. vm_compute. discriminate.
  - apply pow_incr. split; [lra|]. pose proof (exp_ineq1_le 1). lra.
Qed.

Lemma np_exp_in_range (x : R) :
  - 103 <= x <= 88 ->
  RealScalar.exp (RealScalar.Finite x) = RealScalar.Finite (exp x).
Proof.
  intros Hx. destruct (exp_in_range x Hx) as [Hlo Hhi].
  unfold RealScalar.exp.
  destruct (Rle_dec RealScalar.overflow_bound (exp x)) as [H|_]; [lra|].
  destruct (Rle_dec (exp x) RealScalar.underflow_bound) as [H|_]; [lra|].
  reflexivity.
Qed.

Lemma np_exp_overflows :
  RealScalar.exp (RealScalar.Finite 100) = RealScalar.PosInf.
Proof.
  unfold RealScalar.exp.
  destruct (Rle_dec RealScalar.overflow_bound (exp 100)) as [_|H];
    [reflexivity|].
  exfalso. apply H. apply exp_100.
Qed.

Lemma np_exp_underflows :
  RealScalar.exp (RealScalar.Finite (- 200)) = RealScalar.Finite 0.
Proof.
  unfold RealScalar.exp.
  destruct (Rle_dec RealScalar.overflow_bound (exp (- 200))) as [H|_].
  - exfalso. pose proof exp_minus_200 as Hlow.
    assert (RealScalar.underflow_bound < RealScalar.overflow_bound).
    { destruct (exp_in_range 0) as [H0 H1]; lra. }
    lra.
  - destruct (Rle_dec (exp (- 200)) RealScalar.underflow_bound) as [_|H];
      [reflexivity|].
    exfalso. apply H. apply exp_minus_200.
Qed.

End ExponentialBounds.

(** C6 as stated fails: with the finite loss 100 the perplexity of the
    non-empty sentence 'he is gay' is infinite, and with the finite loss
    -200 it is zero, hence not strictly positive. *)
Lemma perplexity_leaves_the_range :
  "he is gay" <> ""
  /\ @forward_loss RealScalar.scalar (RealScalar.constant_loss_hub 100)
       (Model.mk "AutoModelForCausalLM" "gpt2" [] [])
       [50256; 2; 2; 3; 50256]%Z
     = RealScalar.Finite 100
  /\ @sentence_perplexity RealScalar.scalar (RealScalar.constant_loss_hub 100)
       "gpt2" "clm" (Model.mk "AutoModelForCausalLM" "gpt2" [] []) "he is gay"
     = inr RealScalar.PosInf
  /\ @sentence_perplexity RealScalar.scalar
       (RealScalar.constant_loss_hub (-200))
       "gpt2" "clm" (Model.mk "AutoModelForCausalLM" "gpt2" [] []) "he is gay"
     = inr (RealScalar.Finite 0)
  /\ ~ (exists p : R,
           @sentence_perplexity RealScalar.scalar
             (RealScalar.constant_loss_hub 100)
             "gpt2" "clm" (Model.mk "AutoModelForCausalLM" "gpt2" [] [])
             "he is gay"
           = inr (RealScalar.Finite p) /\ (0 < p)%R).
Proof.
  assert (Hred : forall x : R,
             @sentence_perplexity RealScalar.scalar
               (RealScalar.constant_loss_hub x)
               "gpt2" "clm" (Model.mk "AutoModelForCausalLM" "gpt2" [] [])
               "he is gay"
             = inr (RealScalar.exp (RealScalar.Finite x)))
    by reflexivity.
  split; [discriminate|]. split; [reflexivity|].
  rewrite !Hred, np_exp_overflows, np_exp_underflows.
  split; [reflexivity|]. split; [reflexivity|].
  intros (p & Hp & _). discriminate Hp.
Qed.

(** C6, amended: whenever a sentence has token ids for the model type and
    the model's loss on them is a finite real between -103 and 88, the
    perplexity of the sentence, the single precision exponential of that
    loss, is finite and strictly positive. *)
Theorem perplexity_positive_finite (hub : @Hub RealScalar.scalar)
        model_name model_type (model : Model.t) sentence ids (loss : R) :
  @tensor_input RealScalar.scalar hub model_name model_type sentence
  = inr ids ->
  @forward_loss RealScalar.scalar hub model ids = RealScalar.Finite loss ->
  (- 103 <= loss <= 88)%R ->
  exists p : R,
    @sentence_perplexity RealScalar.scalar hub model_name model_type model
                         sentence
    = inr (RealScalar.Finite p)
    /\ RealScalar.Finite p = RealScalar.exp (RealScalar.Finite loss)
    /\ (0 < p)%R.
Proof.
  intros Hids Hloss Hrange. exists (exp loss).
  unfold sentence_perplexity. rewrite Hids. cbn [res_bind].
  rewrite Hloss. cbn [np_exp RealScalar.scalar].
  rewrite (np_exp_in_range loss Hrange).
  split; [reflexivity|]. split; [reflexivity|apply exp_pos].
Qed.

(** ** Witnesses *)

Lemma unrecognized_model_raises_witness :
  PyStr.contains "bert" "microsoft/DialoGPT-medium" = false
  /\ PyStr.contains "gpt2" "microsoft/DialoGPT-medium" = false
  /\ @calculatePerplexity IntHub.scalar IntHub.hub
       "microsoft/DialoGPT-medium" IntHub.test_df "Queerphobia" None None
       IntHub.world0
     = (inl (NameError "InputError"), IntHub.world0).
Proof.
  split; [reflexivity|]. split; [reflexivity|].
  apply (@unrecognized_model_raises IntHub.scalar IntHub.hub); reflexivity.
Defined.

Lemma unknown_corpus_leaves_strategy_unbound_witness :
  select_strategy (Some "/bert_adapter_cda") None = inr None
  /\ @calculatePerplexity IntHub.scalar IntHub.hub
       "bert-base-uncased" IntHub.test_df "Queerphobia"
       (Some "/bert_adapter_cda") None IntHub.world0
     = (inl (UnboundLocalError "strategy"), IntHub.world0).
Proof.
  destruct (@unknown_corpus_leaves_strategy_unbound IntHub.scalar IntHub.hub
              "bert-base-uncased" IntHub.test_df "Queerphobia"
              "/bert_adapter_cda" None IntHub.world0)
    as (Hsel & _ & Hcall).
  - discriminate.
  - reflexivity.
  - reflexivity.
  - split; [exact Hsel|]. apply Hcall. left. reflexivity.
Defined.

Lemma causal_single_adapter_path_suffix_witness :
  snd (@load_trained_model IntHub.scalar "gpt2" "clm" "Args.me"
         (Some "/gpt2_argsme_adapter") None IntHub.world0)
  = @mkWorld IntHub.scalar "../../results/" []
      [ FromPretrained "AutoModelForCausalLM" "gpt2";
        LoadAdapter "../../results//gpt2_argsme_adapter/mlm"
                    "model_adapter" true;
        SetActiveAdapters "model_adapter" ].
Proof.
  apply (proj1 (@causal_single_adapter_path_suffix IntHub.scalar IntHub.hub
                  "gpt2" "Args.me" IntHub.test_df "Queerphobia"
                  "/gpt2_argsme_adapter" "/gpt2_wiki_adapter" None
                  IntHub.world0 (or_introl eq_refl))).
Defined.

Lemma opposing_side_is_row_means_witness :
  exists (model : Model.t) (bs os : list Z) (w' : @World IntHub.scalar),
    length os = length IntHub.test_df
    /\ @calculatePerplexity IntHub.scalar IntHub.hub "gpt2" IntHub.test_df
         "Queerphobia" (Some "/gpt2_argsme_adapter") None IntHub.world0
       = (inr (@result_of IntHub.scalar "GPT-2" "Queerphobia" "Args.me"
                 (@t_test IntHub.scalar IntHub.hub bs os)), w').
Proof.
  destruct (@opposing_side_is_row_means IntHub.scalar IntHub.hub
              "gpt2" "GPT-2" "clm" IntHub.test_df "Queerphobia"
              "/gpt2_argsme_adapter" None "Args.me" IntHub.world0)
    as (model & bs & os & w' & _ & _ & Hlen & _ & _ & Hcall).
  - reflexivity.
  - reflexivity.
  - vm_compute. repeat constructor; discriminate.
  - exists model, bs, os, w'. split; [exact Hlen|exact Hcall].
Defined.

Lemma successful_call_appends_one_result_witness :
  @calculatePerplexity IntHub.scalar IntHub.hub "gpt2" IntHub.test_df
    "Queerphobia" (Some "/gpt2_argsme_adapter") None IntHub.world0
  = (inr IntHub.result1, IntHub.world1)
  /\ all_results IntHub.world1
     = all_results IntHub.world0 ++ [IntHub.result1].
Proof.
  assert (Hcall :
            @calculatePerplexity IntHub.scalar IntHub.hub "gpt2"
              IntHub.test_df "Queerphobia" (Some "/gpt2_argsme_adapter")
              None IntHub.world0
            = (inr IntHub.result1, IntHub.world1))
    by (vm_compute; reflexivity).
  split; [exact Hcall|].
  exact (proj1 (@successful_call_appends_one_result IntHub.scalar IntHub.hub
                  "gpt2" IntHub.test_df "Queerphobia"
                  (Some "/gpt2_argsme_adapter") None IntHub.world0
                  IntHub.world1 IntHub.result1 Hcall)).
Defined.

Lemma empty_opposing_list_divides_by_zero_witness :
  exists w',
    @calculatePerplexity IntHub.scalar IntHub.hub "bert-base-uncased"
      [Prepared.mk 0 10 "he is tall" [] [] [] []] "Queerphobia"
      (Some "/bert_wiki_adapter") None IntHub.world0
    = (inl ZeroDivisionError, w')
    /\ all_results w' = all_results IntHub.world0.
Proof.
  assert (Hrow : Exists (fun r => Prepared.Opposing_Sentence r = [])
                        [Prepared.mk 0 10 "he is tall" [] [] [] []])
    by (apply Exists_cons_hd; reflexivity).
  apply (proj2 (@empty_opposing_list_divides_by_zero IntHub.scalar IntHub.hub
                  "bert-base-uncased"
                  [Prepared.mk 0 10 "he is tall" [] [] [] []] "Queerphobia"
                  (Some "/bert_wiki_adapter") None IntHub.world0 Hrow)
               ("BERT", "mlm") "Wikipedia"); reflexivity.
Defined.

Lemma perplexity_positive_finite_witness :
  exists p : R,
    @sentence_perplexity RealScalar.scalar RealScalar.unit_loss_hub
      "gpt2" "clm" (Model.mk "AutoModelForCausalLM" "gpt2" [] []) "he is gay"
    = inr (RealScalar.Finite p)
    /\ RealScalar.Finite p = RealScalar.exp (RealScalar.Finite 1)
    /\ (0 < p)%R.
Proof.
  apply (perplexity_positive_finite RealScalar.unit_loss_hub
           "gpt2" "clm" (Model.mk "AutoModelForCausalLM" "gpt2" [] [])
           "he is gay" [50256; 2; 2; 3; 50256]%Z 1%R).
  - reflexivity.
  - reflexivity.
  - lra.
Defined.

(** ** The data preparer *)

Section PreparerFacts.

Lemma mem_In (x : string) (xs : list string) :
  PyStr.mem x xs = true <-> In x xs.
Proof.
  unfold PyStr.mem. rewrite existsb_exists. split.
  - intros (y & Hy & E). apply String.eqb_eq in E. subst. exact Hy.
  - intros Hx. exists x. split; [exact Hx|apply String.eqb_refl].
Qed.

Lemma mem_not_In (x : string) (xs : list string) :
  PyStr.mem x xs = false <-> ~ In x xs.
Proof.
  rewrite <- mem_In. destruct (PyStr.mem x xs); split; congruence.
Qed.

Lemma opposites_paired (t o : string) (pairs : TermPairs) :
  In o (Helpers.opposites t pairs) -> In (t, o) pairs \/ In (o, t) pairs.
Proof.
  unfold Helpers.opposites. rewrite in_flat_map.
  intros ([a b] & Hp & Ho). simpl in Ho. apply in_app_or in Ho.
  destruct Ho as [Ho|Ho].
  - destruct (String.eqb a t) eqn:E; [|contradiction].
    apply String.eqb_eq in E. destruct Ho as [<-|[]]. subst. left. exact Hp.
  - destruct (String.eqb b t) eqn:E; [|contradiction].
    apply String.eqb_eq in E. destruct Ho as [<-|[]]. subst. right. exact Hp.
Qed.

(** A combination lists the found terms in order, each with one of its
    opposites. *)
Lemma createCombination_shape (pairs : TermPairs) (tts : list string)
      (combo : list (string * string)) :
  In combo (Helpers.createCombination
              tts (Helpers.findOppositeTargetTerm tts pairs)) ->
  map fst combo = tts
  /\ Forall (fun p => In (snd p) (Helpers.opposites (fst p) pairs)) combo.
Proof.
  revert combo. induction tts as [|t rest IH]; intros combo Hin; simpl in Hin.
  - destruct Hin as [<-|[]]. split; constructor.
  - apply in_flat_map in Hin. destruct Hin as (o & Ho & Hin).
    apply in_map_iff in Hin. destruct Hin as (tail & <- & Htail).
    destruct (IH tail Htail) as [Hkeys Hvals].
    split.
    + simpl. rewrite Hkeys. reflexivity.
    + constructor; [exact Ho|exact Hvals].
Qed.

Lemma substitute_other (combo : list (string * string)) (w : string) :
  ~ In w (map fst combo) -> Helpers.substitute combo w = w.
Proof.
  intros Hw. unfold Helpers.substitute.
  destruct (find (fun p => String.eqb (fst p) w) combo) as [p|] eqn:Ef;
    [|reflexivity].
  apply find_some in Ef. destruct Ef as [Hp E].
  apply String.eqb_eq in E. exfalso. apply Hw. rewrite <- E.
  apply in_map. exact Hp.
Qed.

Lemma substitute_key (combo : list (string * string)) (w : string) :
  In w (map fst combo) -> In (w, Helpers.substitute combo w) combo.
Proof.
  intros Hw. unfold Helpers.substitute.
  destruct (find (fun p => String.eqb (fst p) w) combo) as [[a b]|] eqn:Ef.
  - apply find_some in Ef. destruct Ef as [Hp E].
    apply String.eqb_eq in E. simpl in E. subst. exact Hp.
  - exfalso. apply in_map_iff in Hw. destruct Hw as (p & <- & Hp).
    pose proof (find_none _ _ Ef p Hp) as E. simpl in E.
    rewrite String.eqb_refl in E. discriminate.
Qed.

Lemma findTargetTerms_spec (sentence : string) (terms : list string)
      (w : string) :
  In w (Helpers.findTargetTerms sentence terms)
  <-> In w terms /\ In w (PyStr.split sentence).
Proof.
  unfold Helpers.findTargetTerms. rewrite filter_In, mem_In. reflexivity.
Qed.

Lemma prepared_rows (frame : list Annotation.t) (pairs : TermPairs)
      (r : Prepared.t) :
  In r (Preparer.prepared frame pairs) ->
  exists s : Sample.t, r = Preparer.augment pairs s.
Proof.
  unfold Preparer.prepared, Preparer.prepare_df. cbn [snd].
  rewrite in_map_iff. intros (s & <- & _). exists s. reflexivity.
Qed.

(** C3: every opposing sentence of a prepared row is the biased sentence
    with its words rewritten by one of the row's combinations: a word that
    is a matched target term becomes a term the table pairs with it, every
    other word stays as it is; and the matched terms of a row are the
    target terms among its words. *)
Theorem opposing_sentences_substitute_terms (frame : list Annotation.t)
        (pairs : TermPairs) (r : Prepared.t) (opposing : string) :
  In r (Preparer.prepared frame pairs) ->
  In opposing (Prepared.Opposing_Sentence r) ->
  exists combo,
    In combo (Prepared.Target_Term_Combination r)
    /\ opposing
       = PyStr.join (map (Helpers.substitute combo)
                         (PyStr.split (Prepared.Biased_Sentence r)))
    /\ forall w,
         In w (PyStr.split (Prepared.Biased_Sentence r)) ->
         PyStr.mem w (Prepared.tt_list r)
         = PyStr.mem w (Preparer.all_target_terms pairs)
         /\ (PyStr.mem w (Prepared.tt_list r) = true ->
             In (w, Helpers.substitute combo w) pairs
             \/ In (Helpers.substitute combo w, w) pairs)
         /\ (PyStr.mem w (Prepared.tt_list r) = false ->
             Helpers.substitute combo w = w).
Proof.
  intros Hr Hopp.
  destruct (prepared_rows _ _ _ Hr) as [s ->].
  unfold Preparer.augment in *. cbn [Prepared.Opposing_Sentence
    Prepared.Target_Term_Combination Prepared.Biased_Sentence
    Prepared.tt_list] in *.
  unfold Helpers.replaceTermsInSentence in Hopp.
  apply in_map_iff in Hopp. destruct Hopp as (combo & <- & Hcombo).
  exists combo. split; [exact Hcombo|]. split; [reflexivity|].
  destruct (createCombination_shape _ _ _ Hcombo) as [Hkeys Hvals].
  intros w Hw. split; [|split].
  - destruct (PyStr.mem w (Preparer.all_target_terms pairs)) eqn:Et.
    + apply mem_In. apply findTargetTerms_spec. split; [|exact Hw].
      apply mem_In. exact Et.
    + apply mem_not_In. intros Hin. apply findTargetTerms_spec in Hin.
      apply mem_not_In in Et. tauto.
  - intros Hm. apply mem_In in Hm. rewrite <- Hkeys in Hm.
    apply substitute_key in Hm.
    rewrite Forall_forall in Hvals. specialize (Hvals _ Hm).
    apply opposites_paired in Hvals. exact Hvals.
  - intros Hm. apply mem_not_In in Hm. rewrite <- Hkeys in Hm.
    apply substitute_other. exact Hm.
Qed.

Lemma opposing_sentences_substitute_terms_witness :
  exists combo,
    In combo (Prepared.Target_Term_Combination PreparerDemo.row)
    /\ "lesbian people like cis people"
       = PyStr.join (map (Helpers.substitute combo)
                         (PyStr.split "straight people like queer people")).
Proof.
  destruct (opposing_sentences_substitute_terms
              PreparerDemo.sheet PreparerDemo.pairs PreparerDemo.row
              "lesbian people like cis people")
    as (combo & Hcombo & Heq & _).
  - vm_compute. right. left. reflexivity.
  - vm_compute. right. left. reflexivity.
  - exists combo. split; [exact Hcombo|exact Heq].
Defined.

Lemma lower_ascii_idempotent (c : ascii) :
  PyStr.lower_ascii (PyStr.lower_ascii c) = PyStr.lower_ascii c.
Proof.
  destruct c as [[] [] [] [] [] [] [] []]; reflexivity.
Qed.

Lemma lower_idempotent (s : string) :
  PyStr.lower (PyStr.lower s) = PyStr.lower s.
Proof.
  induction s as [|c rest IH]; simpl.
  - reflexivity.
  - rewrite lower_ascii_idempotent, IH. reflexivity.
Qed.

(** What [drop_from] keeps: rows of the frame, in the frame's order, with
    sentences that are new and pairwise different. *)
Lemma drop_from_keeps (seen : list string) (df : list Sample.t) :
  NoDup (map Sample.Biased_Sentence (Preparer.drop_from seen df))
  /\ forall r, In r (Preparer.drop_from seen df) ->
               In r df /\ ~ In (Sample.Biased_Sentence r) seen.
Proof.
  revert seen. induction df as [|r rest IH]; intros seen; simpl.
  - split; [constructor|intros r []].
  - destruct (PyStr.mem (Sample.Biased_Sentence r) seen) eqn:Em.
    + destruct (IH seen) as [Hnd Hin]. split; [exact Hnd|].
      intros x Hx. destruct (Hin x Hx). auto.
    + destruct (IH (Sample.Biased_Sentence r :: seen)) as [Hnd Hin].
      apply mem_not_In in Em. split.
      * simpl. constructor; [|exact Hnd].
        intros Hr. apply in_map_iff in Hr. destruct Hr as (x & Hx & Hxin).
        destruct (Hin x Hxin) as [_ Hnot]. apply Hnot. left. auto.
      * intros x [<-|Hx]; [auto|].
        destruct (Hin x Hx) as [Hxin Hnot]. split; [auto|].
        intros Hs. apply Hnot. right. exact Hs.
Qed.

(** A frame without repeated sentences passes [drop_from] unchanged. *)
Lemma drop_from_fixed (seen : list string) (df : list Sample.t) :
  NoDup (map Sample.Biased_Sentence df) ->
  (forall r, In r df -> ~ In (Sample.Biased_Sentence r) seen) ->
  Preparer.drop_from seen df = df.
Proof.
  revert seen. induction df as [|r rest IH]; intros seen Hnd Hnew; simpl.
  - reflexivity.
  - assert (Em : PyStr.mem (Sample.Biased_Sentence r) seen = false).
    { apply mem_not_In. apply Hnew. left. reflexivity. }
    rewrite Em. f_equal. simpl in Hnd. inversion Hnd as [|? ? Hr Hrest]; subst.
    apply IH; [exact Hrest|].
    intros x Hx [Hs|Hs].
    + apply Hr. rewrite Hs. apply in_map. exact Hx.
    + apply (Hnew x); [right; exact Hx|exact Hs].
Qed.

Lemma lowercase_fixed (df : list Sample.t) :
  (forall r, In r df ->
             PyStr.lower (Sample.Biased_Sentence r) = Sample.Biased_Sentence r) ->
  Preparer.lowercase df = df.
Proof.
  induction df as [|r rest IH]; intros Hlow; simpl.
  - reflexivity.
  - rewrite (Hlow r (or_introl eq_refl)).
    rewrite IH by (intros x Hx; apply Hlow; right; exact Hx).
    destruct r; reflexivity.
Qed.

(** The frame after the deduplication step of [prepare_df]. *)
Lemma deduplicated_frame (df : list Sample.t) :
  let kept := Preparer.drop_duplicates (Preparer.lowercase df) in
  NoDup (map Sample.Biased_Sentence kept)
  /\ (forall r, In r kept ->
                PyStr.lower (Sample.Biased_Sentence r)
                = Sample.Biased_Sentence r)
  /\ Preparer.drop_duplicates (Preparer.lowercase kept) = kept.
Proof.
  cbv zeta. unfold Preparer.drop_duplicates.
  destruct (drop_from_keeps [] (Preparer.lowercase df)) as [Hnd Hin].
  assert (Hlow : forall r,
             In r (Preparer.drop_from [] (Preparer.lowercase df)) ->
             PyStr.lower (Sample.Biased_Sentence r)
             = Sample.Biased_Sentence r).
  { intros r Hr. destruct (Hin r Hr) as [Hr' _].
    unfold Preparer.lowercase in Hr'. apply in_map_iff in Hr'.
    destruct Hr' as (x & <- & _). simpl. apply lower_idempotent. }
  split; [exact Hnd|]. split; [exact Hlow|].
  rewrite (lowercase_fixed _ Hlow).
  apply drop_from_fixed; [exact Hnd|]. intros r _ [].
Qed.

Lemma reprepare_samples (pairs : TermPairs) (kept : list Sample.t) :
  Preparer.relevant_columns
    (Preparer.keep_biased
       (Preparer.as_annotations (map (Preparer.augment pairs) kept)))
  = kept.
Proof.
  unfold Preparer.relevant_columns, Preparer.keep_biased,
    Preparer.as_annotations.
  induction kept as [|r rest IH]; cbn [map filter].
  - reflexivity.
  - cbn [Annotation.Biased_Sentence Z.eqb Pos.eqb map].
    rewrite IH. destruct r; reflexivity.
Qed.

(** C5: the preparer run on its own output, saved as an annotation sheet
    of biased sentences, returns that output again, the same rows in the
    same order; the deduplication step alone is idempotent on every frame;
    and after one pass no two rows share their lowercased sentence. *)
Theorem preparer_is_idempotent (frame : list Annotation.t)
        (pairs : TermPairs) :
  let out := Preparer.prepared frame pairs in
  Preparer.prepared (Preparer.as_annotations out) pairs = out
  /\ (forall df : list Sample.t,
         Preparer.drop_duplicates
           (Preparer.lowercase
              (Preparer.drop_duplicates (Preparer.lowercase df)))
         = Preparer.drop_duplicates (Preparer.lowercase df))
  /\ NoDup (map (fun r => PyStr.lower (Prepared.Biased_Sentence r)) out).
Proof.
  cbv zeta.
  set (kept := Preparer.drop_duplicates
                 (Preparer.lowercase
                    (Preparer.relevant_columns
                       (Preparer.keep_biased frame)))).
  assert (Hout : Preparer.prepared frame pairs
                 = map (Preparer.augment pairs) kept) by reflexivity.
  destruct (deduplicated_frame
              (Preparer.relevant_columns (Preparer.keep_biased frame)))
    as (Hnd & Hlow & Hfix). fold kept in Hnd, Hlow, Hfix.
  split; [|split].
  - rewrite Hout. unfold Preparer.prepared at 1, Preparer.prepare_df.
    cbn [snd]. rewrite reprepare_samples. rewrite Hfix. reflexivity.
  - intros df. apply (deduplicated_frame df).
  - rewrite Hout, map_map. cbn [Preparer.augment Prepared.Biased_Sentence].
    erewrite map_ext_in; [exact Hnd|].
    intros r Hr. cbn. apply Hlow. exact Hr.
Qed.

End PreparerFacts.

(** * Further properties of the evaluator *)

Section CallEffect.

Context `{hub : Hub}.

Lemma model_family_error model_name e :
  model_family model_name = inl e ->
  e = NameError "InputError"
  /\ PyStr.contains "bert" model_name = false
  /\ PyStr.contains "gpt2" model_name = false.
Proof.
  unfold model_family.
  destruct (PyStr.contains "bert" model_name); [discriminate|].
  destruct (PyStr.contains "gpt2" model_name); [discriminate|].
  intros E. injection E as <-. auto.
Qed.

Lemma model_family_recognised model_name family :
  model_family model_name = inr family ->
  family = (if PyStr.contains "bert" model_name then ("BERT", "mlm")
            else ("GPT-2", "clm"))
  /\ (PyStr.contains "bert" model_name = true
      \/ PyStr.contains "gpt2" model_name = true).
Proof.
  unfold model_family.
  destruct (PyStr.contains "bert" model_name).
  - intros E. injection E as <-. auto.
  - destruct (PyStr.contains "gpt2" model_name); [|discriminate].
    intros E. injection E as <-. auto.
Qed.

Lemma select_strategy_error adapter_dir1 adapter_dir2 e :
  select_strategy adapter_dir1 adapter_dir2 = inl e ->
  PyOpt.truthy adapter_dir1 = false /\ exists msg, e = TypeError msg.
Proof.
  unfold select_strategy.
  destruct (PyOpt.truthy adapter_dir1) eqn:Ht.
  - destruct adapter_dir1 as [d1|]; [|discriminate Ht]. simpl.
    destruct (PyStr.contains "argsme" d1); [discriminate|].
    destruct (PyStr.contains "wiki" d1); discriminate.
  - simpl. intros E. injection E as <-. eauto.
Qed.

Lemma select_strategy_some d1 adapter_dir2 strategy :
  select_strategy (Some d1) adapter_dir2 = inr (Some strategy) ->
  strategy = (if PyStr.contains "argsme" d1 then "Args.me" else "Wikipedia")
  /\ (PyStr.contains "argsme" d1 = true \/ PyStr.contains "wiki" d1 = true).
Proof.
  unfold select_strategy.
  destruct (PyOpt.truthy (Some d1)); simpl; [|discriminate].
  destruct (PyStr.contains "argsme" d1).
  - intros E. injection E as <-. auto.
  - destruct (PyStr.contains "wiki" d1); [|discriminate].
    intros E. injection E as <-. auto.
Qed.

Lemma select_strategy_none d1 adapter_dir2 :
  select_strategy (Some d1) adapter_dir2 = inr None ->
  d1 <> "" /\ PyStr.contains "argsme" d1 = false
  /\ PyStr.contains "wiki" d1 = false.
Proof.
  unfold select_strategy.
  destruct (PyOpt.truthy (Some d1)) eqn:Ht; simpl; [|discriminate].
  destruct (PyStr.contains "argsme" d1); [discriminate|].
  destruct (PyStr.contains "wiki" d1); [discriminate|].
  intros _. split; [|auto]. intros ->. discriminate Ht.
Qed.

(** A call that raises in one of its first two statements. *)
Lemma call_raises_early model_name test_df bias_type adapter_dir1
      adapter_dir2 (w : World) :
  (forall e, model_family model_name = inl e ->
             calculatePerplexity model_name test_df bias_type adapter_dir1
                                 adapter_dir2 w = (inl e, w))
  /\ (forall family e,
         model_family model_name = inr family ->
         select_strategy adapter_dir1 adapter_dir2 = inl e ->
         calculatePerplexity model_name test_df bias_type adapter_dir1
                             adapter_dir2 w = (inl e, w))
  /\ (forall family,
         model_family model_name = inr family ->
         select_strategy adapter_dir1 adapter_dir2 = inr None ->
         calculatePerplexity model_name test_df bias_type adapter_dir1
                             adapter_dir2 w
         = (inl (UnboundLocalError "strategy"), w)).
Proof.
  repeat split.
  - intros e Hfam. unfold calculatePerplexity.
    unfold bind at 1. unfold lift at 1. rewrite Hfam. reflexivity.
  - intros family e Hfam Hsel. unfold calculatePerplexity.
    unfold bind at 1. unfold lift at 1. rewrite Hfam.
    unfold bind at 1. unfold lift at 1. rewrite Hsel. reflexivity.
  - intros family Hfam Hsel. unfold calculatePerplexity.
    unfold bind at 1. unfold lift at 1. rewrite Hfam.
    unfold bind at 1. unfold lift at 1. rewrite Hsel. reflexivity.
Qed.

(** The outcome of a call that gets through, for a given reading [ppl] of
    the model's perplexities. *)
Lemma call_outcome_with (ppl : string -> F) model_name language_model
      model_type test_df bias_type d1 adapter_dir2 strategy (w : World) :
  (forall x,
      sentence_perplexity model_name model_type
        (single_adapter_model model_name model_type (all_adapters_dir w) d1) x
      = inr (ppl x)) ->
  model_family model_name = inr (language_model, model_type) ->
  select_strategy (Some d1) adapter_dir2 = inr (Some strategy) ->
  Forall (fun r => Prepared.Opposing_Sentence r <> []) test_df ->
  let t := t_test (map (fun r => ppl (Prepared.Biased_Sentence r)) test_df)
                  (map (fun r => mean (map ppl (Prepared.Opposing_Sentence r)))
                       test_df) in
  let result := result_of language_model bias_type strategy t in
  calculatePerplexity model_name test_df bias_type (Some d1) adapter_dir2 w
  = (inr result,
     mkWorld (all_adapters_dir w) (all_results w ++ [result])
       (trace w ++
          events_before_scoring language_model strategy bias_type model_name
                                model_type (all_adapters_dir w) d1
          ++ events_after_scoring language_model t)).
Proof.
  intros Hppl Hfam Hsel Hrows. cbv zeta.
  destruct (call_outcome _ _ _ test_df bias_type _ _ _ w Hfam Hsel Hrows)
    as (ppl' & evs & Hppl' & Hevs & ->). cbv zeta in Hevs.
  assert (Hsame : forall x, ppl' x = ppl x).
  { intros x. specialize (Hppl x). rewrite Hppl' in Hppl.
    injection Hppl as ->. reflexivity. }
  assert (Hb : map (fun r => ppl' (Prepared.Biased_Sentence r)) test_df
               = map (fun r => ppl (Prepared.Biased_Sentence r)) test_df).
  { apply map_ext. intros r. apply Hsame. }
  assert (Ho : map (fun r => mean (map ppl' (Prepared.Opposing_Sentence r)))
                   test_df
               = map (fun r => mean (map ppl (Prepared.Opposing_Sentence r)))
                     test_df).
  { apply map_ext. intros r. f_equal. apply map_ext. intros x. apply Hsame. }
  rewrite Hevs, Hb, Ho. reflexivity.
Qed.

End CallEffect.

Section CallBehaviour.

Context `{hub : Hub}.

Lemma world_eta (w : World) :
  mkWorld (all_adapters_dir w) (all_results w ++ []) (trace w ++ []) = w.
Proof.
  destruct w. cbn. rewrite !app_nil_r. reflexivity.
Qed.

(** What a call does, told apart from the globals it starts in: an
    outcome, the records it appends and the events it adds. *)
Lemma call_effect model_name test_df bias_type adapter_dir1 adapter_dir2
      (dir : string) :
  exists (outcome : res Result) (new_results : list Result)
         (new_events : list event),
    (forall w : World,
        all_adapters_dir w = dir ->
        calculatePerplexity model_name test_df bias_type adapter_dir1
                            adapter_dir2 w
        = (outcome,
           mkWorld dir (all_results w ++ new_results)
                   (trace w ++ new_events)))
    /\ forallb (fun e => negb (is_stacking_event e)) new_events = true
    /\ length (filter is_load_adapter new_events) <= 1
    /\ match outcome with
       | inl _ => new_results = []
       | inr r => new_results = [r]
       end.
Proof.
  destruct (model_family model_name) as [e|[language_model model_type]]
    eqn:Hfam.
  { exists (inl e), [], []. repeat split; auto.
    intros w Hdir. rewrite <- Hdir, world_eta.
    apply (call_raises_early model_name test_df bias_type adapter_dir1
                             adapter_dir2 w). exact Hfam. }
  destruct (select_strategy adapter_dir1 adapter_dir2) as [e|[strategy|]]
    eqn:Hsel.
  - exists (inl e), [], []. repeat split; auto.
    intros w Hdir. rewrite <- Hdir, world_eta.
    eapply (call_raises_early model_name test_df bias_type adapter_dir1
                              adapter_dir2 w); eassumption.
  - destruct (select_strategy_assigned _ _ _ Hsel) as (d1 & -> & _).
    pose proof (model_family_cases _ _ _ Hfam) as Hmt.
    destruct (sentence_perplexity_total model_name model_type
                (single_adapter_model model_name model_type dir d1))
      as [ppl Hppl].
    { destruct Hmt as [[_ ->]|[_ ->]]; auto. }
    destruct (rows_all_or_some_empty test_df) as [Hall|Hex].
    + eexists. eexists. eexists. split; [|split; [|split]].
      * intros w Hdir.
        pose proof (call_outcome_with ppl model_name language_model
                      model_type test_df bias_type d1 adapter_dir2
                      strategy w) as Hout.
        cbv zeta in Hout. rewrite Hdir in Hout.
        apply (Hout Hppl Hfam Hsel Hall).
      * unfold events_after_scoring, table_of.
        destruct (t_test _ _) as [[[[? ?] ?] ?] ?]. reflexivity.
      * unfold events_after_scoring, table_of.
        destruct (t_test _ _) as [[[[? ?] ?] ?] ?]. cbn. auto.
      * reflexivity.
    + exists (inl ZeroDivisionError), [],
        (events_before_scoring language_model strategy bias_type model_name
                               model_type dir d1).
      split; [|split; [|split]]; [|reflexivity|cbn; auto|reflexivity].
      intros w Hdir.
      destruct (call_zero_division _ _ _ test_df bias_type _ _ _ w
                                   Hfam Hsel Hex) as (evs & -> & ->).
      rewrite app_nil_r, Hdir. reflexivity.
  - exists (inl (UnboundLocalError "strategy")), [], [].
    repeat split; auto.
    intros w Hdir. rewrite <- Hdir, world_eta.
    eapply (call_raises_early model_name test_df bias_type adapter_dir1
                              adapter_dir2 w); eassumption.
Qed.

End CallBehaviour.

Section EvaluatorBehaviour.

Context `{hub : Hub}.

(** X1: a call returns a result only when the model name contains
    'bert' or 'gpt2', the first adapter directory is a string containing
    'argsme' or 'wiki', and every row of the frame has at least one
    opposing sentence; a call that lacks one of the three raises. *)
Theorem call_returns_only_if model_name test_df bias_type adapter_dir1
        adapter_dir2 (w w' : World) (r : Result) :
  calculatePerplexity model_name test_df bias_type adapter_dir1 adapter_dir2 w
  = (inr r, w') ->
  (PyStr.contains "bert" model_name = true
   \/ PyStr.contains "gpt2" model_name = true)
  /\ (exists d1,
         adapter_dir1 = Some d1
         /\ (PyStr.contains "argsme" d1 = true
             \/ PyStr.contains "wiki" d1 = true))
  /\ Forall (fun r => Prepared.Opposing_Sentence r <> []) test_df.
Proof.
  intros Hcall.
  destruct (call_success_inv _ _ _ _ _ _ _ _ Hcall)
    as (lm & mt & d1 & s & Hfam & -> & Hsel & Hrows).
  split; [apply (model_family_recognised _ _ Hfam)|].
  split; [|exact Hrows].
  exists d1. split; [reflexivity|apply (select_strategy_some _ _ _ Hsel)].
Qed.

(** X2: whatever its arguments and however it ends, a call leaves the
    records that were in [all_results] in place and in order and adds at
    most one record behind them, and it never changes
    [all_adapters_dir]. *)
Theorem all_results_only_grows model_name test_df bias_type adapter_dir1
        adapter_dir2 (w : World) :
  exists new_results,
    all_results (snd (calculatePerplexity model_name test_df bias_type
                                          adapter_dir1 adapter_dir2 w))
    = all_results w ++ new_results
    /\ length new_results <= 1
    /\ all_adapters_dir (snd (calculatePerplexity model_name test_df
                                bias_type adapter_dir1 adapter_dir2 w))
       = all_adapters_dir w.
Proof.
  destruct (call_effect model_name test_df bias_type adapter_dir1
                        adapter_dir2 (all_adapters_dir w))
    as (outcome & new_results & events & Hcall & _ & _ & Hnew).
  exists new_results. rewrite (Hcall w eq_refl).
  cbn [snd all_results all_adapters_dir].
  split; [reflexivity|]. split; [|reflexivity].
  destruct outcome; subst new_results; simpl; auto.
Qed.

(** X3: with a non-empty first adapter directory the second one has no
    influence at all: outcome, results and events of the call are the same
    whatever is passed for [adapter_dir2]. *)
Theorem second_adapter_is_ignored model_name test_df bias_type d1
        adapter_dir2 adapter_dir2' (w : World) :
  d1 <> "" ->
  calculatePerplexity model_name test_df bias_type (Some d1) adapter_dir2 w
  = calculatePerplexity model_name test_df bias_type (Some d1)
                        adapter_dir2' w.
Proof.
  intros Hne.
  assert (Hsel : select_strategy (Some d1) adapter_dir2
                 = select_strategy (Some d1) adapter_dir2').
  { unfold select_strategy.
    assert (Ht : PyOpt.truthy (Some d1) = true)
      by (destruct d1; [congruence|reflexivity]).
    rewrite Ht. reflexivity. }
  destruct (call_raises_early model_name test_df bias_type (Some d1)
                              adapter_dir2 w) as (Ha1 & Ha2 & Ha3).
  destruct (call_raises_early model_name test_df bias_type (Some d1)
                              adapter_dir2' w) as (Hb1 & Hb2 & Hb3).
  destruct (model_family model_name) as [e|[lm mt]] eqn:Hfam.
  { rewrite (Ha1 e eq_refl), (Hb1 e eq_refl). reflexivity. }
  destruct (select_strategy (Some d1) adapter_dir2) as [e|[s|]] eqn:Hs.
  - rewrite (Ha2 _ e eq_refl eq_refl).
    rewrite (Hb2 _ e eq_refl (eq_sym Hsel)). reflexivity.
  - destruct (call_reaches_scoring _ _ _ test_df bias_type _ _ _ w Hfam Hs)
      as (evs & -> & ->).
    symmetry in Hsel.
    destruct (call_reaches_scoring _ _ _ test_df bias_type _ _ _ w Hfam Hsel)
      as (evs' & -> & ->).
    reflexivity.
  - rewrite (Ha3 _ eq_refl eq_refl).
    rewrite (Hb3 _ eq_refl (eq_sym Hsel)). reflexivity.
Qed.

(** X4: without a first adapter directory ([None] or the empty string) a
    call for a recognised model raises the [TypeError] of [&] before it
    prints or loads anything, whatever the second directory is: the model
    without adapters cannot be evaluated. *)
Theorem call_without_first_adapter_raises model_name test_df bias_type
        adapter_dir1 adapter_dir2 (w : World) :
  PyStr.contains "bert" model_name = true
  \/ PyStr.contains "gpt2" model_name = true ->
  adapter_dir1 = None \/ adapter_dir1 = Some "" ->
  exists msg,
    calculatePerplexity model_name test_df bias_type adapter_dir1
                        adapter_dir2 w = (inl (TypeError msg), w).
Proof.
  intros Hname Hdir.
  assert (Hfam : exists family, model_family model_name = inr family).
  { unfold model_family.
    destruct (PyStr.contains "bert" model_name); [eauto|].
    destruct Hname as [Hb|Hg]; [discriminate|rewrite Hg; eauto]. }
  destruct Hfam as [family Hfam].
  destruct (select_strategy_falsy adapter_dir1 adapter_dir2) as [msg Hsel].
  { destruct Hdir as [-> | ->]; reflexivity. }
  exists msg.
  eapply (call_raises_early model_name test_df bias_type adapter_dir1
                            adapter_dir2 w); eassumption.
Qed.

(** X5: no call ever takes a stacking branch: whatever the arguments and
    the outcome, the events of a call contain no stack activation and no
    adapter loaded without its head, and at most one adapter is loaded. *)
Theorem no_call_stacks_adapters model_name test_df bias_type adapter_dir1
        adapter_dir2 (w : World) :
  exists events,
    trace (snd (calculatePerplexity model_name test_df bias_type
                                    adapter_dir1 adapter_dir2 w))
    = trace w ++ events
    /\ (forall first second, ~ In (ActivateStack first second) events)
    /\ (forall path load_as, ~ In (LoadAdapter path load_as false) events)
    /\ length (filter is_load_adapter events) <= 1.
Proof.
  destruct (call_effect model_name test_df bias_type adapter_dir1
                        adapter_dir2 (all_adapters_dir w))
    as (outcome & new_results & events & Hcall & Hnone & Hone & _).
  exists events. rewrite (Hcall w eq_refl). cbn [snd trace].
  split; [reflexivity|].
  rewrite forallb_forall in Hnone.
  split; [|split; [|exact Hone]].
  - intros first second Hin. specialize (Hnone _ Hin). discriminate Hnone.
  - intros path load_as Hin. specialize (Hnone _ Hin). discriminate Hnone.
Qed.

(** X6: what a call returns or raises, the records it appends and the
    events it adds do not depend on what earlier calls left in
    [all_results] or on the console: two calls with the same arguments in
    globals that agree on [all_adapters_dir] end the same way. *)
Theorem call_is_independent_of_history model_name test_df bias_type
        adapter_dir1 adapter_dir2 (w1 w2 : World) :
  all_adapters_dir w1 = all_adapters_dir w2 ->
  exists outcome new_results new_events,
    calculatePerplexity model_name test_df bias_type adapter_dir1
                        adapter_dir2 w1
    = (outcome,
       mkWorld (all_adapters_dir w1) (all_results w1 ++ new_results)
               (trace w1 ++ new_events))
    /\ calculatePerplexity model_name test_df bias_type adapter_dir1
                           adapter_dir2 w2
       = (outcome,
          mkWorld (all_adapters_dir w2) (all_results w2 ++ new_results)
                  (trace w2 ++ new_events)).
Proof.
  intros Hdir.
  destruct (call_effect model_name test_df bias_type adapter_dir1
                        adapter_dir2 (all_adapters_dir w1))
    as (outcome & new_results & events & Hcall & _).
  exists outcome, new_results, events. split.
  - apply Hcall. reflexivity.
  - rewrite <- Hdir. apply Hcall. symmetry. exact Hdir.
Qed.

(** X7: results accumulate in call order: after two calls that return,
    one after the other, [all_results] is the list before the first call
    followed by the record of the first and then the record of the
    second. *)
Theorem two_calls_append_in_order
        model_name1 test_df1 bias_type1 adapter_dir1 adapter_dir2
        model_name2 test_df2 bias_type2 adapter_dir1' adapter_dir2'
        (w w1 w2 : World) (r1 r2 : Result) :
  calculatePerplexity model_name1 test_df1 bias_type1 adapter_dir1
                      adapter_dir2 w = (inr r1, w1) ->
  calculatePerplexity model_name2 test_df2 bias_type2 adapter_dir1'
                      adapter_dir2' w1 = (inr r2, w2) ->
  all_results w2 = all_results w ++ [r1; r2]
  /\ all_adapters_dir w2 = all_adapters_dir w.
Proof.
  intros Hcall1 Hcall2.
  destruct (call_effect model_name1 test_df1 bias_type1 adapter_dir1
                        adapter_dir2 (all_adapters_dir w))
    as (o1 & n1 & e1 & He1 & _ & _ & Hn1).
  rewrite (He1 w eq_refl) in Hcall1. injection Hcall1 as -> <-.
  subst n1.
  destruct (call_effect model_name2 test_df2 bias_type2 adapter_dir1'
                        adapter_dir2' (all_adapters_dir w))
    as (o2 & n2 & e2 & He2 & _ & _ & Hn2).
  rewrite (He2 (mkWorld (all_adapters_dir w) (all_results w ++ [r1])
                        (trace w ++ e1)) eq_refl) in Hcall2.
  injection Hcall2 as -> <-.
  subst n2. cbn [all_results all_adapters_dir].
  rewrite <- app_assoc. split; reflexivity.
Qed.

(** X8: the labels of a returned record are read off the names alone:
    the model is 'BERT' whenever the model name contains 'bert' (also when
    it contains 'gpt2' as well) and 'GPT-2' otherwise; the strategy is
    'Args.me' whenever the first adapter directory contains 'argsme' (also
    when it contains 'wiki' as well) and 'Wikipedia' otherwise; the bias
    type is the argument as given. *)
Theorem returned_labels model_name test_df bias_type adapter_dir1
        adapter_dir2 (w w' : World) (r : Result) :
  calculatePerplexity model_name test_df bias_type adapter_dir1 adapter_dir2 w
  = (inr r, w') ->
  r_Model r = (if PyStr.contains "bert" model_name then "BERT" else "GPT-2")
  /\ r_Bias_Type r = bias_type
  /\ exists d1,
       adapter_dir1 = Some d1
       /\ r_Strategy r
          = (if PyStr.contains "argsme" d1 then "Args.me" else "Wikipedia").
Proof.
  intros Hcall.
  destruct (call_success_inv _ _ _ _ _ _ _ _ Hcall)
    as (lm & mt & d1 & s & Hfam & -> & Hsel & Hrows).
  destruct (call_outcome _ _ _ test_df bias_type _ _ _ w Hfam Hsel Hrows)
    as (ppl & evs & _ & _ & Hout).
  rewrite Hout in Hcall. injection Hcall as <- _.
  destruct (model_family_recognised _ _ Hfam) as [Hlm _].
  destruct (select_strategy_some _ _ _ Hsel) as [Hs _].
  unfold result_of.
  destruct (t_test _ _) as [[[[ttest pval] num_samples] mean_bs] mean_os].
  cbn [r_Model r_Bias_Type r_Strategy].
  split; [|split; [reflexivity|]].
  - destruct (PyStr.contains "bert" model_name); injection Hlm as -> _;
      reflexivity.
  - exists d1. split; [reflexivity|exact Hs].
Qed.

(** X9: on a frame without rows a call with a recognised model and corpus
    adapter still loads the model, the adapter and the tokenizer, runs
    [t_test] on two empty sequences and appends the record built from what
    it returns. *)
Theorem call_on_empty_frame model_name bias_type d1 adapter_dir2
        language_model model_type strategy (w : World) :
  model_family model_name = inr (language_model, model_type) ->
  select_strategy (Some d1) adapter_dir2 = inr (Some strategy) ->
  let result := result_of language_model bias_type strategy (t_test [] []) in
  calculatePerplexity model_name [] bias_type (Some d1) adapter_dir2 w
  = (inr result,
     mkWorld (all_adapters_dir w) (all_results w ++ [result])
       (trace w ++
          events_before_scoring language_model strategy bias_type model_name
                                model_type (all_adapters_dir w) d1
          ++ events_after_scoring language_model (t_test [] []))).
Proof.
  intros Hfam Hsel.
  destruct (sentence_perplexity_total model_name model_type
              (single_adapter_model model_name model_type
                                    (all_adapters_dir w) d1))
    as [ppl Hppl].
  { destruct (model_family_cases _ _ _ Hfam) as [[_ ->]|[_ ->]]; auto. }
  apply (call_outcome_with ppl model_name language_model model_type []
                           bias_type d1 adapter_dir2 strategy w
                           Hppl Hfam Hsel).
  constructor.
Qed.

End EvaluatorBehaviour.

(** * Further properties of the data preparer *)

Section PreparerBehaviour.

Lemma prepared_unfold (frame : list Annotation.t) (pairs : TermPairs) :
  Preparer.prepared frame pairs
  = map (Preparer.augment pairs)
        (Preparer.drop_duplicates
           (map lowered (Preparer.keep_biased frame))).
Proof.
  unfold Preparer.prepared, Preparer.prepare_df. cbn [snd].
  unfold Preparer.lowercase, Preparer.relevant_columns. rewrite map_map.
  reflexivity.
Qed.

Lemma sheet_columns_augment (pairs : TermPairs) (kept : list Sample.t) :
  map sheet_columns (map (Preparer.augment pairs) kept) = kept.
Proof.
  rewrite map_map. induction kept as [|s rest IH]; simpl.
  - reflexivity.
  - rewrite IH. destruct s; reflexivity.
Qed.

Lemma Subsequence_trans {A : Type} (l1 l2 l3 : list A) :
  Subsequence l1 l2 -> Subsequence l2 l3 -> Subsequence l1 l3.
Proof.
  intros H12 H23. revert l1 H12.
  induction H23 as [|x l2 l3 H23 IH|x l2 l3 H23 IH]; intros l1 H12.
  - exact H12.
  - apply Subsequence_skip. apply IH. exact H12.
  - inversion H12; subst.
    + apply Subsequence_skip. apply IH. assumption.
    + apply Subsequence_keep. apply IH. assumption.
Qed.

Lemma Subsequence_length {A : Type} (l1 l2 : list A) :
  Subsequence l1 l2 -> length l1 <= length l2.
Proof.
  induction 1; simpl; auto using le_n_S, le_S.
Qed.

Lemma Subsequence_filter_map {A B : Type} (f : A -> B) (p : A -> bool)
      (l : list A) :
  Subsequence (map f (filter p l)) (map f l).
Proof.
  induction l as [|x rest IH]; simpl.
  - apply Subsequence_nil.
  - destruct (p x); simpl;
      [apply Subsequence_keep|apply Subsequence_skip]; exact IH.
Qed.

Lemma drop_from_Subsequence (seen : list string) (df : list Sample.t) :
  Subsequence (Preparer.drop_from seen df) df.
Proof.
  revert seen. induction df as [|r rest IH]; intros seen; simpl.
  - apply Subsequence_nil.
  - destruct (PyStr.mem (Sample.Biased_Sentence r) seen);
      [apply Subsequence_skip|apply Subsequence_keep]; apply IH.
Qed.

(** Every sentence of the frame is either already seen or among the
    sentences [drop_from] keeps. *)
Lemma drop_from_complete (seen : list string) (df : list Sample.t)
      (s : Sample.t) :
  In s df ->
  In (Sample.Biased_Sentence s) seen
  \/ In (Sample.Biased_Sentence s)
        (map Sample.Biased_Sentence (Preparer.drop_from seen df)).
Proof.
  revert seen. induction df as [|r rest IH]; intros seen Hin; simpl.
  - destruct Hin.
  - destruct (PyStr.mem (Sample.Biased_Sentence r) seen) eqn:Em.
    + destruct Hin as [<-|Hin]; [left; apply mem_In; exact Em|].
      apply IH. exact Hin.
    + destruct Hin as [<-|Hin]; [right; left; reflexivity|].
      destruct (IH (Sample.Biased_Sentence r :: seen) Hin) as [[E|Hs]|Hk].
      * right. left. exact E.
      * left. exact Hs.
      * right. right. exact Hk.
Qed.

(** The first row of a sentence is the one [drop_from] keeps. *)
Lemma drop_from_first (seen : list string) (before after : list Sample.t)
      (s : Sample.t) :
  ~ In (Sample.Biased_Sentence s) seen ->
  (forall x, In x before ->
             Sample.Biased_Sentence x <> Sample.Biased_Sentence s) ->
  In s (Preparer.drop_from seen (before ++ s :: after)).
Proof.
  revert seen. induction before as [|x rest IH]; intros seen Hnew Hdiff; simpl.
  - apply mem_not_In in Hnew. rewrite Hnew. left. reflexivity.
  - destruct (PyStr.mem (Sample.Biased_Sentence x) seen).
    + apply IH; [exact Hnew|]. intros y Hy. apply Hdiff. right. exact Hy.
    + right. apply IH.
      * intros [E|Hs]; [|exact (Hnew Hs)].
        apply (Hdiff x); [left; reflexivity|exact E].
      * intros y Hy. apply Hdiff. right. exact Hy.
Qed.

Lemma NoDup_map_injective_on {A B : Type} (f : A -> B) (l : list A)
      (x y : A) :
  NoDup (map f l) -> In x l -> In y l -> f x = f y -> x = y.
Proof.
  induction l as [|z rest IH]; simpl; intros Hnd Hx Hy E; [destruct Hx|].
  inversion Hnd as [|? ? Hz Hrest]; subst.
  destruct Hx as [<-|Hx], Hy as [<-|Hy].
  - reflexivity.
  - exfalso. apply Hz. rewrite E. apply in_map. exact Hy.
  - exfalso. apply Hz. rewrite <- E. apply in_map. exact Hx.
  - apply IH; assumption.
Qed.

Lemma drop_from_same_length (seen : list string) (df : list Sample.t) :
  length (Preparer.drop_from seen df) = length df ->
  Preparer.drop_from seen df = df.
Proof.
  revert seen. induction df as [|r rest IH]; intros seen; simpl.
  - reflexivity.
  - destruct (PyStr.mem (Sample.Biased_Sentence r) seen).
    + intros E.
      pose proof (Subsequence_length _ _ (drop_from_Subsequence seen rest)).
      rewrite E in H. exfalso. apply (Nat.nle_succ_diag_l _ H).
    + simpl. intros E. injection E as E. rewrite (IH _ E). reflexivity.
Qed.

Lemma kept_rows (frame : list Annotation.t) :
  let kept := Preparer.drop_duplicates
                (map lowered (Preparer.keep_biased frame)) in
  NoDup (map Sample.Biased_Sentence kept)
  /\ Subsequence kept (map lowered frame)
  /\ forall s, In s kept ->
               exists a, In a frame /\ Annotation.Biased_Sentence a = 1%Z
                         /\ s = lowered a.
Proof.
  cbv zeta. unfold Preparer.drop_duplicates.
  destruct (drop_from_keeps [] (map lowered (Preparer.keep_biased frame)))
    as [Hnd Hin].
  split; [exact Hnd|]. split.
  - eapply Subsequence_trans; [apply drop_from_Subsequence|].
    apply Subsequence_filter_map.
  - intros s Hs. destruct (Hin s Hs) as [Hs' _].
    apply in_map_iff in Hs'. destruct Hs' as (a & <- & Ha).
    unfold Preparer.keep_biased in Ha. apply filter_In in Ha.
    destruct Ha as [Ha Hlabel]. apply Z.eqb_eq in Hlabel. eauto.
Qed.

(** X10: every row of the prepared frame stems from a row of the sheet
    that is marked as biased: it carries that row's [Column1] and [ID],
    and its sentence is that row's [newSent] in lower case.  Rows that are
    not marked with 1 leave no trace in the result. *)
Theorem prepared_rows_come_from_biased_rows (frame : list Annotation.t)
        (pairs : TermPairs) (r : Prepared.t) :
  In r (Preparer.prepared frame pairs) ->
  exists a,
    In a frame
    /\ Annotation.Biased_Sentence a = 1%Z
    /\ Prepared.Column1 r = Annotation.Column1 a
    /\ Prepared.ID r = Annotation.ID a
    /\ Prepared.Biased_Sentence r = PyStr.lower (Annotation.newSent a).
Proof.
  rewrite prepared_unfold. intros Hr.
  apply in_map_iff in Hr. destruct Hr as (s & <- & Hs).
  destruct (kept_rows frame) as (_ & _ & Hfrom).
  destruct (Hfrom s Hs) as (a & Ha & Hlabel & ->).
  exists a. repeat split; assumption.
Qed.

(** X11: no biased sentence is lost and none is kept twice: for every
    row of the sheet marked as biased, the prepared frame has exactly one
    row whose sentence is that row's sentence in lower case. *)
Theorem every_biased_sentence_is_kept_once (frame : list Annotation.t)
        (pairs : TermPairs) (a : Annotation.t) :
  In a frame ->
  Annotation.Biased_Sentence a = 1%Z ->
  exists r,
    In r (Preparer.prepared frame pairs)
    /\ Prepared.Biased_Sentence r = PyStr.lower (Annotation.newSent a)
    /\ forall r',
         In r' (Preparer.prepared frame pairs) ->
         Prepared.Biased_Sentence r' = PyStr.lower (Annotation.newSent a) ->
         r' = r.
Proof.
  intros Ha Hlabel. rewrite prepared_unfold.
  set (kept := Preparer.drop_duplicates
                 (map lowered (Preparer.keep_biased frame))).
  destruct (kept_rows frame) as (Hnd & _ & _). fold kept in Hnd.
  assert (Hin : In (lowered a) (map lowered (Preparer.keep_biased frame))).
  { apply in_map. unfold Preparer.keep_biased. apply filter_In.
    split; [exact Ha|]. apply Z.eqb_eq. exact Hlabel. }
  destruct (drop_from_complete [] _ _ Hin) as [[]|Hkept].
  fold (Preparer.drop_duplicates (map lowered (Preparer.keep_biased frame)))
    in Hkept. fold kept in Hkept.
  apply in_map_iff in Hkept. destruct Hkept as (s & Hkey & Hs).
  exists (Preparer.augment pairs s). split; [apply in_map; exact Hs|].
  split; [exact Hkey|].
  intros r' Hr' Hkey'. apply in_map_iff in Hr'.
  destruct Hr' as (s' & <- & Hs'). f_equal.
  apply (NoDup_map_injective_on Sample.Biased_Sentence kept);
    try assumption.
  cbn in Hkey'. cbn in Hkey. congruence.
Qed.

(** X12: of several biased rows with the same sentence up to case the
    first one in the sheet is the one that is kept: a biased row before
    which no biased row has the same lowercased sentence appears in the
    prepared frame with its own [Column1] and [ID]. *)
Theorem first_row_of_a_sentence_is_kept (before after : list Annotation.t)
        (a : Annotation.t) (pairs : TermPairs) :
  Annotation.Biased_Sentence a = 1%Z ->
  (forall b, In b before ->
             Annotation.Biased_Sentence b = 1%Z ->
             PyStr.lower (Annotation.newSent b)
             <> PyStr.lower (Annotation.newSent a)) ->
  exists r,
    In r (Preparer.prepared (before ++ a :: after) pairs)
    /\ sheet_columns r = lowered a.
Proof.
  intros Hlabel Hfirst. rewrite prepared_unfold.
  exists (Preparer.augment pairs (lowered a)). split; [|reflexivity].
  apply in_map. unfold Preparer.keep_biased. rewrite filter_app. simpl.
  apply Z.eqb_eq in Hlabel. rewrite Hlabel. rewrite map_app. simpl.
  apply drop_from_first; [intros []|].
  intros x Hx. apply in_map_iff in Hx. destruct Hx as (b & <- & Hb).
  apply filter_In in Hb. destruct Hb as [Hb Hlb]. apply Z.eqb_eq in Hlb.
  cbn. apply Hfirst; assumption.
Qed.

(** X13: the prepared frame keeps the order of the sheet: for a sheet
    with a biased row, the sheet columns of the prepared rows are the rows
    of the sheet (sentences in lower case) with some rows left out and the
    others in their order. *)
Theorem prepared_frame_keeps_sheet_order (frame : list Annotation.t)
        (pairs : TermPairs) :
  Preparer.keep_biased frame <> [] ->
  Subsequence (map sheet_columns (Preparer.prepared frame pairs))
              (map lowered frame).
Proof.
  intros _. rewrite prepared_unfold, sheet_columns_augment.
  apply (kept_rows frame).
Qed.

(** X14: for a sheet with a biased row, the two numbers [prepare_df]
    prints are the number of rows marked as biased and the number of rows
    it returns; the second is at least 1 and at most the first, and the
    two are equal exactly when no two biased rows have the same sentence
    up to case. *)
Theorem printed_row_counts (frame : list Annotation.t) (pairs : TermPairs) :
  Preparer.keep_biased frame <> [] ->
  let biased := Preparer.keep_biased frame in
  let out := Preparer.prepared frame pairs in
  fst (Preparer.prepare_df frame pairs)
  = [ ("Number of biased sentences per Attribute: "
       ++ Preparer.str_len biased)%string;
      ("Number of biased sentences without duplicates: "
       ++ Preparer.str_len out)%string;
      "Dataframe prepared!" ]
  /\ 1 <= length out
  /\ length out <= length biased
  /\ length biased <= length frame
  /\ (length out = length biased
      <-> NoDup (map (fun a => PyStr.lower (Annotation.newSent a)) biased)).
Proof.
  intros Hne. cbv zeta.
  set (samples := map lowered (Preparer.keep_biased frame)).
  assert (Hout : Preparer.prepared frame pairs
                 = map (Preparer.augment pairs)
                       (Preparer.drop_duplicates samples))
    by apply prepared_unfold.
  assert (Hlen : length (Preparer.prepared frame pairs)
                 = length (Preparer.drop_duplicates samples))
    by (rewrite Hout; apply length_map).
  assert (Hsamples : length samples = length (Preparer.keep_biased frame))
    by apply length_map.
  assert (Hkeys : map Sample.Biased_Sentence samples
                  = map (fun a => PyStr.lower (Annotation.newSent a))
                        (Preparer.keep_biased frame)).
  { unfold samples. rewrite map_map. reflexivity. }
  split; [|split; [|split; [|split]]].
  - unfold Preparer.prepare_df, Preparer.str_len. cbn [fst].
    unfold Preparer.prepared, Preparer.prepare_df. cbn [snd].
    unfold Preparer.relevant_columns. rewrite !length_map. reflexivity.
  - rewrite Hlen. unfold Preparer.drop_duplicates, samples.
    destruct (Preparer.keep_biased frame) as [|a rest]; [congruence|].
    simpl. apply Nat.lt_0_succ.
  - rewrite Hlen, <- Hsamples.
    apply Subsequence_length, drop_from_Subsequence.
  - unfold Preparer.keep_biased. apply filter_length_le.
  - rewrite Hlen, <- Hsamples, <- Hkeys. split.
    + intros E. apply drop_from_same_length in E.
      fold (Preparer.drop_duplicates samples) in E. rewrite <- E.
      apply (drop_from_keeps [] samples).
    + intros Hnd. unfold Preparer.drop_duplicates.
      rewrite drop_from_fixed; [reflexivity|exact Hnd|intros ? _ []].
Qed.

Lemma distinct_In (x : string) (xs : list string) :
  In x (PyStr.distinct xs) <-> In x xs.
Proof.
  induction xs as [|y rest IH]; simpl; [tauto|].
  rewrite filter_In, IH. split.
  - intros [E|[Hx _]]; auto.
  - intros [E|Hx]; [auto|].
    destruct (String.eqb y x) eqn:Eyx.
    + left. apply String.eqb_eq. exact Eyx.
    + right. auto.
Qed.

Lemma distinct_NoDup (xs : list string) : NoDup (PyStr.distinct xs).
Proof.
  induction xs as [|y rest IH]; simpl; constructor.
  - rewrite filter_In. intros [_ E]. rewrite String.eqb_refl in E.
    discriminate E.
  - apply NoDup_filter. exact IH.
Qed.

(** X15: the list of target terms holds exactly the terms of the two
    columns of the table; a term is listed once for each column it occurs
    in, so at most twice, and twice exactly when it stands in both
    columns. *)
Theorem target_terms_of_both_columns (pairs : TermPairs) (t : string) :
  (In t (Preparer.all_target_terms pairs)
   <-> In t (map fst pairs) \/ In t (map snd pairs))
  /\ count_occ string_dec (Preparer.all_target_terms pairs) t <= 2
  /\ (count_occ string_dec (Preparer.all_target_terms pairs) t = 2
      <-> In t (map fst pairs) /\ In t (map snd pairs)).
Proof.
  unfold Preparer.all_target_terms.
  pose proof (distinct_NoDup (map fst pairs)) as Hn1.
  pose proof (distinct_NoDup (map snd pairs)) as Hn2.
  rewrite (NoDup_count_occ string_dec) in Hn1, Hn2.
  specialize (Hn1 t). specialize (Hn2 t).
  pose proof (count_occ_In string_dec (PyStr.distinct (map fst pairs)) t)
    as Hc1.
  pose proof (count_occ_In string_dec (PyStr.distinct (map snd pairs)) t)
    as Hc2.
  rewrite distinct_In in Hc1, Hc2.
  rewrite count_occ_app, in_app_iff, !distinct_In.
  split; [tauto|]. split.
  - apply (Nat.add_le_mono _ 1 _ 1); assumption.
  - split.
    + intros E. split.
      * apply Hc1. destruct (count_occ _ _ t) as [|[|n]] in Hn1, E |- *;
          [|apply Nat.lt_0_succ|apply Nat.lt_0_succ].
        simpl in E. rewrite E in Hn2. inversion Hn2 as [|? Hbad].
        inversion Hbad.
      * apply Hc2.
        destruct (count_occ string_dec (PyStr.distinct (map snd pairs)) t)
          as [|n]; [|apply Nat.lt_0_succ].
        rewrite Nat.add_0_r in E. rewrite E in Hn1.
        inversion Hn1 as [|? Hbad]. inversion Hbad.
    + intros [H1 H2]. apply Hc1 in H1. apply Hc2 in H2.
      apply Nat.le_antisymm.
      * apply (Nat.add_le_mono _ 1 _ 1); assumption.
      * apply (Nat.add_le_mono 1 _ 1 _); assumption.
Qed.

End PreparerBehaviour.

(** * Properties of the training sweep *)

Section SweepFacts.

Import TrainingSweep.

Variable python : list run -> run -> nat.

Lemma inner_loop_launched (EPOCHS : string) (learning_rates : list string)
      (sh : shell) :
  launched (fold_left
              (fun sh LEARNING_RATE =>
                 launch python (command EPOCHS LEARNING_RATE) sh)
              learning_rates sh)
  = launched sh ++ map (command EPOCHS) learning_rates.
Proof.
  revert sh. induction learning_rates as [|l rest IH]; intros sh; simpl.
  - rewrite app_nil_r. reflexivity.
  - rewrite IH. simpl. rewrite <- app_assoc. reflexivity.
Qed.

Lemma for_in_launched (EPOCHS : string) (learning_rates : list string)
      (sh : shell) :
  launched (for_in learning_rates
              (fun LEARNING_RATE => launch python (command EPOCHS LEARNING_RATE))
              sh)
  = launched sh ++ map (command EPOCHS) learning_rates.
Proof.
  unfold for_in. rewrite inner_loop_launched. reflexivity.
Qed.

Lemma for_in_status (EPOCHS : string) (rates : list string) (l : string)
      (sh : shell) :
  status (for_in (rates ++ [l])
            (fun LEARNING_RATE => launch python (command EPOCHS LEARNING_RATE))
            sh)
  = python (launched sh ++ map (command EPOCHS) rates) (command EPOCHS l).
Proof.
  unfold for_in. rewrite fold_left_app. simpl.
  rewrite inner_loop_launched. reflexivity.
Qed.

Lemma outer_loop_launched (epochs learning_rates : list string) (sh : shell) :
  launched (fold_left
              (fun sh EPOCHS =>
                 for_in learning_rates
                   (fun LEARNING_RATE =>
                      launch python (command EPOCHS LEARNING_RATE)) sh)
              epochs sh)
  = launched sh ++ planned epochs learning_rates.
Proof.
  revert sh. induction epochs as [|e rest IH]; intros sh; simpl.
  - rewrite app_nil_r. reflexivity.
  - rewrite IH, for_in_launched, <- app_assoc. reflexivity.
Qed.

Lemma sweep_launched (epochs learning_rates : list string) (sh : shell) :
  launched (sweep python epochs learning_rates sh)
  = launched sh ++ planned epochs learning_rates.
Proof.
  unfold sweep. unfold for_in at 1. rewrite outer_loop_launched. reflexivity.
Qed.

Lemma planned_length (epochs learning_rates : list string) :
  length (planned epochs learning_rates)
  = length epochs * length learning_rates.
Proof.
  unfold planned. induction epochs as [|e rest IH]; simpl.
  - reflexivity.
  - rewrite length_app, length_map, IH. reflexivity.
Qed.

(** X16: the sweep launches the training entry point once for every pair
    of an epoch value and a learning rate, epochs in the outer loop,
    whatever the exit statuses of the runs are: a failed run does not stop
    the sweep.  The script as written launches 15 runs. *)
Theorem sweep_launches_every_configuration
        (epochs learning_rates : list string) (sh : shell) :
  launched (sweep python epochs learning_rates sh)
  = launched sh
    ++ flat_map (fun EPOCHS => map (command EPOCHS) learning_rates) epochs
  /\ length (launched (sweep python epochs learning_rates sh))
     = length (launched sh) + length epochs * length learning_rates
  /\ length (launched (script python)) = 15.
Proof.
  split; [apply sweep_launched|]. split.
  - rewrite sweep_launched, length_app, planned_length. reflexivity.
  - unfold script. rewrite sweep_launched. reflexivity.
Qed.

(** X17: the exit status of the sweep is the exit status of its last run
    alone, the one for the last epoch value and the last learning rate; a
    sweep over no values exits with 0.  For the script as written it is
    the status of the run with 5.0 epochs and learning rate 3e-4, after
    the 14 other runs. *)
Theorem sweep_status_is_last_run (epochs rates : list string)
        (e l : string) (sh : shell) :
  status (sweep python (epochs ++ [e]) (rates ++ [l]) sh)
  = python (launched sh ++ planned epochs (rates ++ [l])
            ++ map (command e) rates)
           (command e l)
  /\ status (sweep python [] (rates ++ [l]) sh) = 0
  /\ status (sweep python (epochs ++ [e]) [] sh) = 0
  /\ status (script python)
     = python (planned ["1.0"; "2.0"; "3.0"; "4.0"] ["2e-4"; "1e-4"; "3e-4"]
               ++ map (command "5.0") ["2e-4"; "1e-4"])
              (command "5.0" "3e-4").
Proof.
  assert (Hlast : forall es e0 rs l0 sh0,
             status (sweep python (es ++ [e0]) (rs ++ [l0]) sh0)
             = python (launched sh0 ++ planned es (rs ++ [l0])
                       ++ map (command e0) rs)
                      (command e0 l0)).
  { intros es e0 rs l0 sh0. unfold sweep. unfold for_in at 1.
    rewrite fold_left_app. cbn [fold_left].
    rewrite for_in_status, outer_loop_launched.
    cbn [launched]. rewrite <- app_assoc. reflexivity. }
  split; [apply Hlast|]. split; [reflexivity|]. split.
  - unfold sweep. unfold for_in at 1. rewrite fold_left_app. reflexivity.
  - unfold script.
    apply (Hlast ["1.0"; "2.0"; "3.0"; "4.0"] "5.0" ["2e-4"; "1e-4"] "3e-4"
                 (mkShell [] 0)).
Qed.

End SweepFacts.

Section OutputDirectories.

Import TrainingSweep.

Lemma append_cancel_l (s a b : string) :
  (s ++ a)%string = (s ++ b)%string -> a = b.
Proof.
  induction s as [|c rest IH]; simpl; intros E.
  - exact E.
  - injection E as E. apply IH. exact E.
Qed.

Lemma append_length (a b : string) :
  String.length (a ++ b) = String.length a + String.length b.
Proof.
  induction a as [|c rest IH]; simpl; [reflexivity|].
  rewrite IH. reflexivity.
Qed.

Lemma append_cancel_r (s a b : string) :
  (a ++ s)%string = (b ++ s)%string -> a = b.
Proof.
  revert b. induction a as [|c rest IH]; intros [|c' rest']; simpl; intros E.
  - reflexivity.
  - apply (f_equal String.length) in E. simpl in E.
    rewrite append_length in E. lia.
  - apply (f_equal String.length) in E. simpl in E.
    rewrite append_length in E. lia.
  - injection E as -> E. f_equal. apply IH. exact E.
Qed.

Lemma no_underscore_cons (c : ascii) (rest : string) :
  PyStr.contains "_" (String c rest) = false ->
  c <> "_"%char /\ PyStr.contains "_" rest = false.
Proof.
  intros H.
  change (PyStr.contains "_" (String c rest))
    with (if String.prefix "_" (String c rest) then true
          else PyStr.contains "_" rest) in H.
  cbn [String.prefix] in H.
  destruct (ascii_dec "_" c) as [E|N].
  - destruct rest; discriminate H.
  - split; [congruence|exact H].
Qed.

(** Two names that agree up to their first underscore and after it. *)
Lemma underscore_splits (a a' b b' : string) :
  PyStr.contains "_" a = false ->
  PyStr.contains "_" a' = false ->
  (a ++ String "_" b)%string = (a' ++ String "_" b')%string ->
  a = a' /\ b = b'.
Proof.
  revert a'. induction a as [|c rest IH]; intros [|c' rest'] Ha Ha' E;
    simpl in E.
  - injection E as ->. auto.
  - injection E as <- _. apply no_underscore_cons in Ha'.
    destruct Ha' as [Hc _]. congruence.
  - injection E as -> _. apply no_underscore_cons in Ha.
    destruct Ha as [Hc _]. congruence.
  - injection E as -> E.
    apply no_underscore_cons in Ha. apply no_underscore_cons in Ha'.
    destruct (IH rest' (proj2 Ha) (proj2 Ha') E) as [-> ->]. auto.
Qed.

Lemma output_dir_name_injective (e l e' l' : string) :
  PyStr.contains "_" e = false ->
  PyStr.contains "_" e' = false ->
  output_dir_name "ibm" "overall" e l "100"
  = output_dir_name "ibm" "overall" e' l' "100" ->
  e = e' /\ l = l'.
Proof.
  intros He He' E. unfold output_dir_name in E.
  apply (append_cancel_l
           "output_logs/argument_quality/bert_db_wiki_both_ibm_overall_")
    in E.
  apply underscore_splits in E; [|assumption|assumption].
  destruct E as [-> E]. split; [reflexivity|].
  apply (append_cancel_r "_100/"). exact E.
Qed.

Lemma cut_no_match (p : ascii -> bool) (s : string) :
  all_chars (fun c => negb (p c)) s = true -> cut p s = [s].
Proof.
  induction s as [|c rest IH]; simpl; [reflexivity|].
  intros H. apply andb_true_iff in H. destruct H as [Hc Hrest].
  apply negb_true_iff in Hc. rewrite Hc, (IH Hrest). reflexivity.
Qed.

Lemma all_chars_weaken (p q : ascii -> bool) (s : string) :
  (forall c, p c = true -> q c = true) ->
  all_chars p s = true -> all_chars q s = true.
Proof.
  intros Hpq. induction s as [|c rest IH]; simpl; [reflexivity|].
  intros H. apply andb_true_iff in H. destruct H as [Hc Hrest].
  rewrite (Hpq c Hc), (IH Hrest). reflexivity.
Qed.

Lemma all_chars_append (p : ascii -> bool) (a b : string) :
  all_chars p (a ++ b) = all_chars p a && all_chars p b.
Proof.
  induction a as [|c rest IH]; simpl; [reflexivity|].
  rewrite IH, andb_assoc. reflexivity.
Qed.

(** An unquoted expansion of a plain word is that word. *)
Lemma fields_plain (value : string) :
  plain_word value = true -> fields value = [value].
Proof.
  unfold plain_word, fields. intros H.
  apply andb_true_iff in H. destruct H as [Hne Hplain].
  rewrite cut_no_match.
  - simpl. rewrite Hne. reflexivity.
  - revert Hplain. apply all_chars_weaken.
    intros c Hc. unfold is_special in Hc.
    rewrite !negb_orb in Hc. rewrite !andb_true_iff in Hc.
    apply Hc.
Qed.

Lemma output_dir_name_plain (e l : string) :
  plain_word e = true -> plain_word l = true ->
  plain_word (output_dir_name "ibm" "overall" e l "100") = true.
Proof.
  unfold plain_word. intros He Hl.
  apply andb_true_iff in He. destruct He as [_ He].
  apply andb_true_iff in Hl. destruct Hl as [_ Hl].
  apply andb_true_iff. split; [reflexivity|].
  unfold output_dir_name.
  change ("output_logs/argument_quality/bert_db_wiki_both_" ++ "ibm" ++ "_"
          ++ "overall" ++ "_" ++ e ++ "_" ++ l ++ "_" ++ "100" ++ "/")%string
    with ("output_logs/argument_quality/bert_db_wiki_both_ibm_overall_"
          ++ (e ++ ("_" ++ (l ++ "_100/"))))%string.
  rewrite !all_chars_append, He, Hl. reflexivity.
Qed.

(** The command line of a run with plain loop values. *)
Lemma command_argv (e l : string) :
  plain_word e = true -> plain_word l = true ->
  argv (command e l)
  = [ "python"; "adapt_glue_file.py";
      "--model_name_or_path"; "bert-base-uncased";
      "--train_file"; "../data/argument_quality/ibm_rank_train.csv";
      "--validation_file"; "../data/argument_quality/ibm_rank_dev.csv";
      "--test_file"; "../data/argument_quality/ibm_rank_test.csv";
      "--train_adapter";
      "--load_lang_adapter";
      "output_logs/bert_wiki_adapter_cda_both_all_subset_lbl/mlm";
      "--lang_adapter_config"; "pfeiffer+inv";
      "--adapter_config"; "pfeiffer";
      "--task_name"; "ibm";
      "--do_train"; "--do_eval"; "--do_predict";
      "--max_seq_length"; "128";
      "--per_device_train_batch_size"; "32";
      "--learning_rate"; l;
      "--num_train_epochs"; e;
      "--output_dir"; output_dir_name "ibm" "overall" e l "100";
      "--seed"; "100";
      "--cache_dir"; "cache_arg_qual";
      "--overwrite_cache"; "--overwrite_output_dir";
      "--save_steps"; "-1" ].
Proof.
  intros He Hl. unfold command. cbn [argv words_of flat_map app].
  rewrite (fields_plain e He), (fields_plain l Hl),
    (fields_plain _ (output_dir_name_plain e l He Hl)).
  reflexivity.
Qed.

Lemma option_value_command (e l : string) :
  plain_word e = true -> plain_word l = true ->
  PyStr.contains "_" e = false ->
  l <> "--output_dir" ->
  option_value "--output_dir" (argv (command e l))
  = Some (output_dir_name "ibm" "overall" e l "100").
Proof.
  intros Hpe Hpl He Hl.
  assert (He' : String.eqb e "--output_dir" = false).
  { apply String.eqb_neq. intros ->. discriminate He. }
  apply String.eqb_neq in Hl.
  rewrite (command_argv e l Hpe Hpl). cbn [option_value].
  rewrite He', Hl. reflexivity.
Qed.

Lemma NoDup_list_prod {A B : Type} (xs : list A) (ys : list B) :
  NoDup xs -> NoDup ys -> NoDup (list_prod xs ys).
Proof.
  intros Hxs Hys. induction Hxs as [|x rest Hx Hrest IH]; simpl.
  - constructor.
  - apply NoDup_app.
    + apply NoDup_map_NoDup_ForallPairs; [|exact Hys].
      intros y y' _ _ E. injection E as E. exact E.
    + exact IH.
    + intros [a b] Hin Hin'. apply in_map_iff in Hin.
      destruct Hin as (y & E & _). injection E as <- <-.
      apply in_prod_iff in Hin'. apply Hx. apply Hin'.
Qed.

Lemma planned_as_product (epochs learning_rates : list string) :
  planned epochs learning_rates
  = map (fun c => command (fst c) (snd c)) (list_prod epochs learning_rates).
Proof.
  unfold planned. induction epochs as [|e rest IH]; simpl.
  - reflexivity.
  - rewrite map_app, map_map, IH. reflexivity.
Qed.

(** X18: no two runs of a sweep write to the same output directory:
    when the loop values are plain words (not empty, without blanks and
    without the pattern characters [*], [?], [[] and the backslash), the
    epoch values are pairwise different and free of underscores, and the
    learning rates are pairwise different and none of them is the word
    '--output_dir', then the word after [--output_dir] is the interpolated
    directory name in every launched command and these names are pairwise
    different.  The values of the script as written are of this kind. *)
Theorem sweep_output_dirs_are_distinct (epochs learning_rates : list string) :
  Forall (fun e => plain_word e = true) epochs ->
  Forall (fun l => plain_word l = true) learning_rates ->
  NoDup epochs ->
  NoDup learning_rates ->
  Forall (fun e => PyStr.contains "_" e = false) epochs ->
  ~ In "--output_dir" learning_rates ->
  NoDup (map (fun r => option_value "--output_dir" (argv r))
             (planned epochs learning_rates))
  /\ forall e l,
       In e epochs -> In l learning_rates ->
       option_value "--output_dir" (argv (command e l))
       = Some (output_dir_name "ibm" "overall" e l "100").
Proof.
  intros Hpe Hpl He Hl Hunder Hflag.
  rewrite Forall_forall in Hunder, Hpe, Hpl.
  assert (Hvalue : forall e l,
             In e epochs -> In l learning_rates ->
             option_value "--output_dir" (argv (command e l))
             = Some (output_dir_name "ibm" "overall" e l "100")).
  { intros e l Hine Hinl. apply option_value_command; auto.
    intros ->. exact (Hflag Hinl). }
  split; [|exact Hvalue].
  rewrite planned_as_product, map_map.
  apply NoDup_map_NoDup_ForallPairs; [|apply NoDup_list_prod; assumption].
  intros [e l] [e' l'] Hc Hc' E. cbn [fst snd] in E.
  apply in_prod_iff in Hc. apply in_prod_iff in Hc'.
  destruct Hc as [Hine Hinl]. destruct Hc' as [Hine' Hinl'].
  rewrite (Hvalue e l Hine Hinl), (Hvalue e' l' Hine' Hinl') in E.
  destruct (output_dir_name_injective e l e' l') as [-> ->];
    [auto|auto|congruence|reflexivity].
Qed.

Lemma sweep_output_dirs_are_distinct_witness :
  NoDup (map (fun r => option_value "--output_dir" (argv r))
             (planned ["1.0"; "2.0"; "3.0"; "4.0"; "5.0"]
                      ["2e-4"; "1e-4"; "3e-4"])).
Proof.
  apply (sweep_output_dirs_are_distinct
           ["1.0"; "2.0"; "3.0"; "4.0"; "5.0"] ["2e-4"; "1e-4"; "3e-4"]).
  - repeat constructor.
  - repeat constructor.
  - repeat constructor; simpl; intuition discriminate.
  - repeat constructor; simpl; intuition discriminate.
  - repeat constructor.
  - simpl. intuition discriminate.
Defined.

Example blanks_split_an_expansion :
  fields "a b" = ["a"; "b"]
  /\ fields "" = []
  /\ option_value "--output_dir" (argv (command "a b" "1e-4"))
     = Some "output_logs/argument_quality/bert_db_wiki_both_ibm_overall_a".
Proof. vm_compute. repeat split. Qed.

Example failed_runs_are_not_reported :
  status (script last_only) = 0
  /\ Forall (fun n => last_only (firstn n (launched (script last_only)))
                                (nth n (launched (script last_only))
                                     (command "" ""))
                      = 1)
            (seq 0 14).
Proof.
  split; [reflexivity|]. vm_compute. repeat constructor.
Qed.

End OutputDirectories.

(** * Witnesses of the further properties *)

Lemma call_returns_only_if_witness :
  (PyStr.contains "bert" "gpt2" = true \/ PyStr.contains "gpt2" "gpt2" = true)
  /\ (exists d1,
         Some "/gpt2_argsme_adapter" = Some d1
         /\ (PyStr.contains "argsme" d1 = true
             \/ PyStr.contains "wiki" d1 = true))
  /\ Forall (fun r => Prepared.Opposing_Sentence r <> []) IntHub.test_df.
Proof.
  assert (Hcall :
            @calculatePerplexity IntHub.scalar IntHub.hub "gpt2"
              IntHub.test_df "Queerphobia" (Some "/gpt2_argsme_adapter")
              None IntHub.world0
            = (inr IntHub.result1, IntHub.world1))
    by (vm_compute; reflexivity).
  exact (@call_returns_only_if IntHub.scalar IntHub.hub "gpt2"
           IntHub.test_df "Queerphobia" (Some "/gpt2_argsme_adapter") None
           IntHub.world0 IntHub.world1 IntHub.result1 Hcall).
Defined.

Lemma second_adapter_is_ignored_witness :
  @calculatePerplexity IntHub.scalar IntHub.hub "gpt2" IntHub.test_df
    "Queerphobia" (Some "/gpt2_argsme_adapter") (Some "/gpt2_wiki_adapter")
    IntHub.world0
  = @calculatePerplexity IntHub.scalar IntHub.hub "gpt2" IntHub.test_df
      "Queerphobia" (Some "/gpt2_argsme_adapter") None IntHub.world0.
Proof.
  apply (@second_adapter_is_ignored IntHub.scalar IntHub.hub).
  discriminate.
Defined.

Lemma call_without_first_adapter_raises_witness :
  exists msg,
    @calculatePerplexity IntHub.scalar IntHub.hub "bert-base-uncased"
      IntHub.test_df "Queerphobia" (Some "") (Some "/bert_wiki_adapter")
      IntHub.world0
    = (inl (TypeError msg), IntHub.world0).
Proof.
  apply (@call_without_first_adapter_raises IntHub.scalar IntHub.hub).
  - left. reflexivity.
  - right. reflexivity.
Defined.

Lemma call_is_independent_of_history_witness :
  exists outcome new_results new_events,
    @calculatePerplexity IntHub.scalar IntHub.hub "gpt2" IntHub.test_df
      "Queerphobia" (Some "/gpt2_argsme_adapter") None IntHub.world0
    = (outcome,
       mkWorld (all_adapters_dir IntHub.world0)
               (all_results IntHub.world0 ++ new_results)
               (trace IntHub.world0 ++ new_events))
    /\ @calculatePerplexity IntHub.scalar IntHub.hub "gpt2" IntHub.test_df
         "Queerphobia" (Some "/gpt2_argsme_adapter") None IntHub.world1
       = (outcome,
          mkWorld (all_adapters_dir IntHub.world1)
                  (all_results IntHub.world1 ++ new_results)
                  (trace IntHub.world1 ++ new_events)).
Proof.
  apply (@call_is_independent_of_history IntHub.scalar IntHub.hub).
  reflexivity.
Defined.

Lemma two_calls_append_in_order_witness :
  all_results IntHub.world2
  = all_results IntHub.world0 ++ [IntHub.result1; IntHub.result1]
  /\ all_adapters_dir IntHub.world2 = all_adapters_dir IntHub.world0.
Proof.
  assert (Hcall1 :
            @calculatePerplexity IntHub.scalar IntHub.hub "gpt2"
              IntHub.test_df "Queerphobia" (Some "/gpt2_argsme_adapter")
              None IntHub.world0
            = (inr IntHub.result1, IntHub.world1))
    by (vm_compute; reflexivity).
  assert (Hcall2 :
            @calculatePerplexity IntHub.scalar IntHub.hub "gpt2"
              IntHub.test_df "Queerphobia" (Some "/gpt2_argsme_adapter")
              None IntHub.world1
            = (inr IntHub.result1, IntHub.world2))
    by (vm_compute; reflexivity).
  exact (@two_calls_append_in_order IntHub.scalar IntHub.hub
           "gpt2" IntHub.test_df "Queerphobia"
           (Some "/gpt2_argsme_adapter") None
           "gpt2" IntHub.test_df "Queerphobia"
           (Some "/gpt2_argsme_adapter") None
           IntHub.world0 IntHub.world1 IntHub.world2
           IntHub.result1 IntHub.result1 Hcall1 Hcall2).
Defined.

Lemma returned_labels_witness :
  r_Model IntHub.result1 = "GPT-2"
  /\ r_Bias_Type IntHub.result1 = "Queerphobia".
Proof.
  assert (Hcall :
            @calculatePerplexity IntHub.scalar IntHub.hub "gpt2"
              IntHub.test_df "Queerphobia" (Some "/gpt2_argsme_adapter")
              None IntHub.world0
            = (inr IntHub.result1, IntHub.world1))
    by (vm_compute; reflexivity).
  destruct (@returned_labels IntHub.scalar IntHub.hub "gpt2" IntHub.test_df
              "Queerphobia" (Some "/gpt2_argsme_adapter") None
              IntHub.world0 IntHub.world1 IntHub.result1 Hcall)
    as (Hmodel & Hbias & _).
  split; [exact Hmodel|exact Hbias].
Defined.

Lemma call_on_empty_frame_witness :
  fst (@calculatePerplexity IntHub.scalar IntHub.hub "bert-base-uncased" []
         "Islamophobia" (Some "/bert_wiki_adapter") None IntHub.world0)
  = inr (@result_of IntHub.scalar "BERT" "Islamophobia" "Wikipedia"
           (@t_test IntHub.scalar IntHub.hub [] [])).
Proof.
  rewrite (@call_on_empty_frame IntHub.scalar IntHub.hub "bert-base-uncased"
             "Islamophobia" "/bert_wiki_adapter" None "BERT" "mlm"
             "Wikipedia" IntHub.world0 eq_refl eq_refl).
  reflexivity.
Defined.

Lemma prepared_rows_come_from_biased_rows_witness :
  exists a,
    In a PreparerDemo.sheet
    /\ Annotation.Biased_Sentence a = 1%Z
    /\ Prepared.Column1 PreparerDemo.row = Annotation.Column1 a
    /\ Prepared.ID PreparerDemo.row = Annotation.ID a
    /\ Prepared.Biased_Sentence PreparerDemo.row
       = PyStr.lower (Annotation.newSent a).
Proof.
  apply (prepared_rows_come_from_biased_rows PreparerDemo.sheet
                                             PreparerDemo.pairs).
  vm_compute. right. left. reflexivity.
Defined.

Lemma every_biased_sentence_is_kept_once_witness :
  exists r,
    In r (Preparer.prepared PreparerDemo.sheet PreparerDemo.pairs)
    /\ Prepared.Biased_Sentence r = PyStr.lower "he is GAY"
    /\ forall r',
         In r' (Preparer.prepared PreparerDemo.sheet PreparerDemo.pairs) ->
         Prepared.Biased_Sentence r' = PyStr.lower "he is GAY" ->
         r' = r.
Proof.
  apply (every_biased_sentence_is_kept_once
           PreparerDemo.sheet PreparerDemo.pairs
           (Annotation.mk 2 12 "he is GAY" 1)).
  - right. right. left. reflexivity.
  - reflexivity.
Defined.

Lemma first_row_of_a_sentence_is_kept_witness :
  exists r,
    In r (Preparer.prepared PreparerDemo.sheet PreparerDemo.pairs)
    /\ sheet_columns r
       = lowered (Annotation.mk 3 13 "Straight people like queer people" 1).
Proof.
  apply (first_row_of_a_sentence_is_kept
           [ Annotation.mk 0 10 "He is gay" 1;
             Annotation.mk 1 11 "The sky is blue" 0;
             Annotation.mk 2 12 "he is GAY" 1 ]
           []
           (Annotation.mk 3 13 "Straight people like queer people" 1)
           PreparerDemo.pairs).
  - reflexivity.
  - intros b [<-|[<-|[<-|[]]]] _; vm_compute; discriminate.
Defined.

Lemma prepared_frame_keeps_sheet_order_witness :
  Subsequence
    (map sheet_columns
         (Preparer.prepared PreparerDemo.sheet PreparerDemo.pairs))
    (map lowered PreparerDemo.sheet).
Proof.
  apply prepared_frame_keeps_sheet_order. vm_compute. discriminate.
Defined.

Lemma printed_row_counts_witness :
  1 <= length (Preparer.prepared PreparerDemo.sheet PreparerDemo.pairs)
  /\ length (Preparer.prepared PreparerDemo.sheet PreparerDemo.pairs)
     <= length (Preparer.keep_biased PreparerDemo.sheet).
Proof.
  destruct (printed_row_counts PreparerDemo.sheet PreparerDemo.pairs)
    as (_ & Hone & Hle & _).
  - vm_compute. discriminate.
  - split; [exact Hone|exact Hle].
Defined.
